(** * Angular documentation crawler: the crawl engine of
      [angular_docs_crawler/crawler.py], with [config.py] and [utils.py].

    Python [str] values are modelled by [string]; a character is a code point
    below 256.  Python sets are [gset string], the dictionary
    [downloaded_files] is a [gmap string string].  A call that can raise
    returns [option]: [None] stands for the exception leaving the function.

    The standard-library functions the crawler calls ([urllib.parse.urlparse],
    [urlunparse], [urljoin], [os.path.join], [os.path.splitext]) are
    transcribed from CPython 3.11 ([Lib/urllib/parse.py], [Lib/posixpath.py]). *)

From Stdlib Require Import Ascii String NArith ZArith Bool List Lia.
From stdpp Require Import gmap strings list pretty.

#[local] Set Warnings "-clear-no-such-hyp".

(** ** Python string operations *)

Module Py.

(** [c in s] for a one-character [c]. *)
Fixpoint char_in (c : ascii) (s : string) : bool :=
  match s with
  | EmptyString => false
  | String a s' => Ascii.eqb a c || char_in c s'
  end.

(** [pat in s]: substring test. *)
Fixpoint contains (pat s : string) : bool :=
  String.prefix pat s ||
  match s with
  | EmptyString => false
  | String _ s' => contains pat s'
  end.

(** [s.partition(c)] when [c] occurs in [s]: the text before the first
    occurrence and the text after it; [None] when [c] does not occur. *)
Fixpoint partition (c : ascii) (s : string) : option (string * string) :=
  match s with
  | EmptyString => None
  | String a s' =>
      if Ascii.eqb a c then Some (EmptyString, s')
      else match partition c s' with
           | Some (h, t) => Some (String a h, t)
           | None => None
           end
  end.

(** [s.split(c, 1)] when [c in s], and [s] with an empty second part
    otherwise. *)
Definition cut (c : ascii) (s : string) : string * string :=
  match partition c s with
  | Some (h, t) => (h, t)
  | None => (s, EmptyString)
  end.

(** [s.rpartition(c)]: the same around the last occurrence. *)
Fixpoint rpartition (c : ascii) (s : string) : option (string * string) :=
  match s with
  | EmptyString => None
  | String a s' =>
      match rpartition c s' with
      | Some (h, t) => Some (String a h, t)
      | None => if Ascii.eqb a c then Some (EmptyString, s') else None
      end
  end.

(** The longest prefix free of characters satisfying [p], and the rest
    (which is empty or starts with such a character). *)
Fixpoint break (p : ascii -> bool) (s : string) : string * string :=
  match s with
  | EmptyString => (EmptyString, EmptyString)
  | String a s' =>
      if p a then (EmptyString, s)
      else let '(h, t) := break p s' in (String a h, t)
  end.

(** [s.lstrip(chars)], [s.rstrip(chars)] and [s.strip(chars)] with the
    character class given as a predicate. *)
Fixpoint lstrip (p : ascii -> bool) (s : string) : string :=
  match s with
  | EmptyString => EmptyString
  | String a s' => if p a then lstrip p s' else s
  end.

Fixpoint rstrip (p : ascii -> bool) (s : string) : string :=
  match s with
  | EmptyString => EmptyString
  | String a s' =>
      match rstrip p s' with
      | EmptyString => if p a then EmptyString else String a EmptyString
      | r => String a r
      end
  end.

Definition strip (p : ascii -> bool) (s : string) : string :=
  rstrip p (lstrip p s).

(** Keep the characters satisfying [p] ([s.replace(c, "")], [re.sub] with an
    empty replacement). *)
Fixpoint filter (p : ascii -> bool) (s : string) : string :=
  match s with
  | EmptyString => EmptyString
  | String a s' => if p a then String a (filter p s') else filter p s'
  end.

Fixpoint map (f : ascii -> ascii) (s : string) : string :=
  match s with
  | EmptyString => EmptyString
  | String a s' => String (f a) (map f s')
  end.

Fixpoint forallb (p : ascii -> bool) (s : string) : bool :=
  match s with
  | EmptyString => true
  | String a s' => p a && forallb p s'
  end.

(** [s[:n]] and [s[n:]] for [n >= 0]. *)
Fixpoint take (n : nat) (s : string) : string :=
  match n, s with
  | S n', String a s' => String a (take n' s')
  | _, _ => EmptyString
  end.

Fixpoint drop (n : nat) (s : string) : string :=
  match n, s with
  | S n', String _ s' => drop n' s'
  | _, _ => s
  end.

(** [s[:k]] for any integer [k]: a negative [k] counts from the end. *)
Definition slice_to (k : Z) (s : string) : string :=
  if (0 <=? k)%Z then take (Z.to_nat k) s
  else take (Z.to_nat (Z.of_nat (String.length s) + k)) s.

(** [s.split(c)]: always at least one piece. *)
Fixpoint split (c : ascii) (s : string) : list string :=
  match s with
  | EmptyString => [EmptyString]
  | String a s' =>
      if Ascii.eqb a c then EmptyString :: split c s'
      else match split c s' with
           | h :: t => String a h :: t
           | [] => [String a EmptyString]
           end
  end.

(** [sep.join(pieces)]. *)
Fixpoint join (sep : string) (pieces : list string) : string :=
  match pieces with
  | [] => EmptyString
  | [x] => x
  | x :: rest => x +:+ sep +:+ join sep rest
  end.

(** The characters other than [c]. *)
Definition is_not (c : ascii) : ascii -> bool :=
  fun a => negb (Ascii.eqb a c).

(** The string is empty or its first character satisfies [p]. *)
Definition starts_with_p (p : ascii -> bool) (s : string) : bool :=
  match s with
  | EmptyString => true
  | String a _ => p a
  end.

(** Truthiness of a [str]. *)
Definition nonempty (s : string) : bool :=
  match s with EmptyString => false | _ => true end.

(** [x in l] for a list of strings. *)
Definition mem (x : string) (l : list string) : bool :=
  existsb (String.eqb x) l.
Arguments mem : simpl never.

(** [s.lower()] on code points below 256: the letters [A] to [Z] and the
    capital letters of Latin-1 (codes 192 to 222 but the multiplication
    sign, 215) move up by 32; every other character stays. *)
Definition is_upper (c : ascii) : bool :=
  let n := N_of_ascii c in
  ((65 <=? n) && (n <=? 90)
   || (192 <=? n) && (n <=? 222) && negb (n =? 215))%N.

Definition lower_char (c : ascii) : ascii :=
  if is_upper c then ascii_of_N (N_of_ascii c + 32) else c.

Definition lower (s : string) : string := map lower_char s.

End Py.

(** ** [urllib.parse] *)

Module Urllib.

Definition uses_relative : list string :=
  [""; "ftp"; "http"; "gopher"; "nntp"; "imap"; "wais"; "file"; "https";
   "shttp"; "mms"; "prospero"; "rtsp"; "rtspu"; "sftp"; "svn"; "svn+ssh";
   "ws"; "wss"].

Definition uses_netloc : list string :=
  [""; "ftp"; "http"; "gopher"; "nntp"; "telnet"; "imap"; "wais"; "file";
   "mms"; "https"; "shttp"; "snews"; "prospero"; "rtsp"; "rtspu"; "rsync";
   "svn"; "svn+ssh"; "sftp"; "nfs"; "git"; "git+ssh"; "ws"; "wss"].

Definition uses_params : list string :=
  [""; "ftp"; "hdl"; "prospero"; "http"; "imap"; "https"; "shttp"; "rtsp";
   "rtspu"; "sip"; "sips"; "mms"; "sftp"; "tel"].

Definition scheme_chars : string :=
  "abcdefghijklmnopqrstuvwxyzABCDEFGHIJKLMNOPQRSTUVWXYZ0123456789+-.".

(** [_WHATWG_C0_CONTROL_OR_SPACE]: the code points 0 to 32. *)
Definition is_c0_control_or_space (c : ascii) : bool :=
  (N_of_ascii c <=? 32)%N.

(** [_UNSAFE_URL_BYTES_TO_REMOVE]: tab, carriage return, line feed. *)
Definition is_unsafe_byte (c : ascii) : bool :=
  let n := N_of_ascii c in ((n =? 9) || (n =? 13) || (n =? 10))%N.

(** The characters [urlsplit] keeps. *)
Definition safe (c : ascii) : bool := negb (is_unsafe_byte c).

(** [c.isascii() and c.isalpha()]. *)
Definition is_ascii_alpha (c : ascii) : bool :=
  let n := N_of_ascii c in
  ((65 <=? n) && (n <=? 90) || (97 <=? n) && (n <=? 122))%N.

(** [str.lower] on one character; it is only applied to scheme characters. *)
Definition lower_char (c : ascii) : ascii :=
  let n := N_of_ascii c in
  if ((65 <=? n) && (n <=? 90))%N then ascii_of_N (n + 32) else c.

(** [c in scheme_chars]. *)
Definition is_scheme_char (c : ascii) : bool := Py.char_in c scheme_chars.
Arguments is_scheme_char : simpl never.

Definition first_char_ok (p : ascii -> bool) (s : string) : bool :=
  match s with
  | EmptyString => false
  | String a _ => p a
  end.

(** The scheme part of [urlsplit]:
<<
    i = url.find(':')
    if i > 0 and url[0].isascii() and url[0].isalpha():
        for c in url[:i]:
            if c not in scheme_chars: break
        else:
            scheme, url = url[:i].lower(), url[i+1:]
>> *)
Definition split_scheme (scheme url : string) : string * string :=
  match Py.partition ":" url with
  | Some (pre, post) =>
      if Py.nonempty pre && first_char_ok is_ascii_alpha url
         && Py.forallb is_scheme_char pre
      then (Py.map lower_char pre, post)
      else (scheme, url)
  | None => (scheme, url)
  end.

(** A scheme as [urlsplit] returns it when it finds one. *)
Definition good_scheme (s : string) : Prop :=
  Py.nonempty s = true
  /\ first_char_ok is_ascii_alpha s = true
  /\ Py.forallb is_scheme_char s = true
  /\ Py.map lower_char s = s.

Definition is_netloc_delim (c : ascii) : bool := Py.char_in c "/?#".

(** [_splitnetloc(url, 2)]. *)
Definition _splitnetloc (url : string) : string * string :=
  Py.break is_netloc_delim (Py.drop 2 url).

Record SplitResult := mkSplit {
  s_scheme : string; s_netloc : string; s_path : string;
  s_query : string; s_fragment : string }.

Record ParseResult := mkParse {
  scheme : string; netloc : string; path : string;
  params : string; query : string; fragment : string }.

Section Parse.

(** [_check_bracketed_host]: the validation of a bracketed host by
    [ipaddress.ip_address] and the IPvFuture pattern; [true] when it does not
    raise.  Nothing is assumed about it. *)
Variable check_bracketed_host : string -> bool.

(** [_check_bracketed_netloc]; [true] when it does not raise. *)
Definition _check_bracketed_netloc (netloc : string) : bool :=
  let hostname_and_port :=
    match Py.rpartition "@" netloc with
    | Some (_, t) => t
    | None => netloc
    end in
  match Py.partition "[" hostname_and_port with
  | Some (before_bracket, bracketed) =>
      if Py.nonempty before_bracket then false
      else
        let '(hostname, port) :=
          match Py.partition "]" bracketed with
          | Some (h, p) => (h, p)
          | None => (bracketed, EmptyString)
          end in
        if Py.nonempty port && negb (String.prefix ":" port) then false
        else check_bracketed_host hostname
  | None =>
      let hostname :=
        match Py.partition ":" hostname_and_port with
        | Some (h, _) => h
        | None => hostname_and_port
        end in
      check_bracketed_host hostname
  end.

(** The bracket checks of [urlsplit] on the network location; [false] stands
    for [ValueError]. *)
Definition netloc_ok (netloc : string) : bool :=
  let opens := Py.char_in "[" netloc in
  let closes := Py.char_in "]" netloc in
  if (opens && negb closes) || (closes && negb opens) then false
  else if opens && closes then _check_bracketed_netloc netloc
  else true.

(** [urlsplit(url, scheme)].  [_checknetloc] only acts on a network location
    with a character whose NFKC form contains one of [/?#@:]; no code point
    below 256 has such a form, so it is the identity here. *)
Definition urlsplit (url scheme : string) : option SplitResult :=
  let url := Py.lstrip is_c0_control_or_space url in
  let scheme := Py.strip is_c0_control_or_space scheme in
  let url := Py.filter (fun c => negb (is_unsafe_byte c)) url in
  let scheme := Py.filter (fun c => negb (is_unsafe_byte c)) scheme in
  let '(scheme, url) := split_scheme scheme url in
  let '(netloc, url) :=
    if String.prefix "//" url then _splitnetloc url else (EmptyString, url) in
  if negb (netloc_ok netloc) then None
  else
    let '(url, fragment) := Py.cut "#" url in
    let '(url, query) := Py.cut "?" url in
    Some (mkSplit scheme netloc url query fragment).


(** The shape of what [urlsplit] returns. *)
Record well_split (r : SplitResult) : Prop := mkWellSplit {
  ws_scheme : s_scheme r = "" \/ good_scheme (s_scheme r);
  ws_ok : netloc_ok (s_netloc r) = true;
  ws_safe_netloc : Py.forallb safe (s_netloc r) = true;
  ws_safe_path : Py.forallb safe (s_path r) = true;
  ws_safe_query : Py.forallb safe (s_query r) = true;
  ws_netloc : Py.forallb (fun a => negb (is_netloc_delim a)) (s_netloc r) = true;
  ws_path_hash : Py.forallb (Py.is_not "#") (s_path r) = true;
  ws_path_question : Py.forallb (Py.is_not "?") (s_path r) = true;
  ws_query_hash : Py.forallb (Py.is_not "#") (s_query r) = true;
  ws_path_slash :
    s_netloc r <> "" -> Py.starts_with_p (Ascii.eqb "/") (s_path r) = true }.

(** [_splitparams]. *)
Definition _splitparams (url : string) : string * string :=
  match Py.rpartition "/" url with
  | Some (dir, last) =>
      match Py.partition ";" last with
      | Some (h, t) => (dir +:+ "/" +:+ h, t)
      | None => (url, EmptyString)
      end
  | None =>
      match Py.partition ";" url with
      | Some (h, t) => (h, t)
      | None => (url, EmptyString)
      end
  end.

Definition urlparse (url scheme : string) : option ParseResult :=
  match urlsplit url scheme with
  | None => None
  | Some r =>
      let '(url, params) :=
        if Py.mem (s_scheme r) uses_params && Py.char_in ";" (s_path r)
        then _splitparams (s_path r) else (s_path r, EmptyString) in
      Some (mkParse (s_scheme r) (s_netloc r) url params (s_query r)
                    (s_fragment r))
  end.

End Parse.

Definition urlunsplit (scheme netloc url query fragment : string) : string :=
  let url :=
    if Py.nonempty netloc
       || (Py.nonempty scheme && Py.mem scheme uses_netloc
           && negb (String.prefix "//" url))
    then
      let url :=
        if Py.nonempty url && negb (String.prefix "/" url)
        then "/" +:+ url else url in
      "//" +:+ netloc +:+ url
    else url in
  let url := if Py.nonempty scheme then scheme +:+ ":" +:+ url else url in
  let url := if Py.nonempty query then url +:+ "?" +:+ query else url in
  if Py.nonempty fragment then url +:+ "#" +:+ fragment else url.

Definition urlunparse (scheme netloc url params query fragment : string)
  : string :=
  let url := if Py.nonempty params then url +:+ ";" +:+ params else url in
  urlunsplit scheme netloc url query fragment.





(** The path with its parameters put back, as [urlunparse] does. *)
Definition with_params (p a : string) : string :=
  if Py.nonempty a then p +:+ String ";" a else p.





End Urllib.

Module UrllibJoin.
Import Urllib.

Section Join.
Variable check_bracketed_host : string -> bool.

(** [segments[1:-1] = filter(None, segments[1:-1])]. *)
Definition drop_empty_middle (segments : list string) : list string :=
  match segments with
  | [] => []
  | [x] => [x]
  | x :: rest =>
      x :: List.filter Py.nonempty (removelast rest) ++ [List.last rest EmptyString]
  end.

(** The loop resolving [.] and [..]; [resolved] is kept in reverse. *)
Fixpoint resolve_dots (segments resolved : list string) : list string :=
  match segments with
  | [] => rev resolved
  | seg :: rest =>
      if String.eqb seg ".." then resolve_dots rest (tl resolved)
      else if String.eqb seg "." then resolve_dots rest resolved
      else resolve_dots rest (seg :: resolved)
  end.

Definition urljoin (base url : string) : option string :=
  if negb (Py.nonempty base) then Some url
  else if negb (Py.nonempty url) then Some base
  else
    match urlparse check_bracketed_host base "" with
    | None => None
    | Some b =>
    match urlparse check_bracketed_host url (scheme b) with
    | None => None
    | Some u =>
      if negb (String.eqb (scheme u) (scheme b))
         || negb (Py.mem (scheme u) uses_relative)
      then Some url
      else if Py.mem (scheme u) uses_netloc && Py.nonempty (netloc u)
      then Some (urlunparse (scheme u) (netloc u) (path u) (params u)
                            (query u) (fragment u))
      else
        let netloc := if Py.mem (scheme u) uses_netloc then netloc b
                      else netloc u in
        if negb (Py.nonempty (path u)) && negb (Py.nonempty (params u))
        then
          let query := if Py.nonempty (query u) then query u else query b in
          Some (urlunparse (scheme u) netloc (path b) (params b) query
                           (fragment u))
        else
          let base_parts := Py.split "/" (path b) in
          let base_parts :=
            if Py.nonempty (List.last base_parts EmptyString)
            then removelast base_parts else base_parts in
          let segments :=
            if String.prefix "/" (path u) then Py.split "/" (path u)
            else drop_empty_middle (base_parts ++ Py.split "/" (path u)) in
          let resolved := resolve_dots segments [] in
          let resolved :=
            if Py.mem (List.last segments EmptyString) ["."; ".."]
            then resolved ++ [EmptyString] else resolved in
          let joined := Py.join "/" resolved in
          Some (urlunparse (scheme u) netloc
                  (if Py.nonempty joined then joined else "/")
                  (params u) (query u) (fragment u))
    end
    end.

End Join.
End UrllibJoin.

(** ** [os.path] (POSIX) *)

Module OsPath.

(** [os.path.join(a, *p)]. *)
Definition join2 (path b : string) : string :=
  if String.prefix "/" b then b
  else if negb (Py.nonempty path)
          || Ascii.eqb (List.last (list_ascii_of_string path) "a"%char) "/"%char
       then path +:+ b
       else path +:+ "/" +:+ b.

Definition join (a : string) (p : list string) : string :=
  fold_left join2 p a.

(** [os.path.splitext(p)]: the extension starts at the last dot of the last
    component, unless only dots precede it there. *)
Definition splitext (p : string) : string * string :=
  let '(dir, base) :=
    match Py.rpartition "/" p with
    | Some (d, b) => (d +:+ "/", b)
    | None => (EmptyString, p)
    end in
  match Py.rpartition "." base with
  | Some (stem, e) =>
      if Py.forallb (Ascii.eqb ".") stem then (p, EmptyString)
      else (dir +:+ stem, "." +:+ e)
  | None => (p, EmptyString)
  end.



End OsPath.

(** ** [config.py] *)

Module Config.

Definition BASE_URL : string := "https://angular.dev".

(** [urljoin(BASE_URL, "/docs")]. *)
Definition DOCS_BASE_URL : string := "https://angular.dev/docs".

Definition MAX_FILE_SIZE : N := 10 * 1024 * 1024.

Definition EXCLUDE_PATTERNS : list string :=
  ["/api/"; "/playground/"; "/tutorial/playground"; ".pdf"; ".zip";
   ".tar.gz"; "mailto:"; "javascript:"; "#"].

Definition PRIORITY_SECTIONS : list string :=
  ["/docs/overview"; "/docs/tutorials"; "/docs/guide"; "/docs/api";
   "/docs/cli"; "/docs/reference"].

Section Dirs.
(** [os.getcwd()] when the module is imported. *)
Variable cwd : string.

Definition OUTPUT_DIR : string := OsPath.join cwd ["angular_docs"].
Definition DOCS_DIR : string := OsPath.join OUTPUT_DIR ["documentation"].
Definition ASSETS_DIR : string := OsPath.join OUTPUT_DIR ["assets"].
End Dirs.

End Config.

(** ** [utils.py] *)

Module Utils.

(** The class of the first substitution: less-than, greater-than, colon,
    double quote (code 34), slash, backslash, bar, question mark, star. *)
Definition is_invalid_char (c : ascii) : bool :=
  Py.char_in c "<>:/\|?*" || (N_of_ascii c =? 34)%N.

(** The class of the second substitution: codes 0 to 31 and 127 to 159. *)
Definition is_control_char (c : ascii) : bool :=
  let n := N_of_ascii c in ((n <=? 31) || (127 <=? n) && (n <=? 159))%N.

Definition sanitize_filename (filename : string) : string :=
  let filename :=
    Py.map (fun c => if is_invalid_char c then "_"%char else c) filename in
  let filename := Py.filter (fun c => negb (is_control_char c)) filename in
  let filename :=
    if (255 <? String.length filename)%nat then
      let '(name, ext) := OsPath.splitext filename in
      Py.slice_to (255 - Z.of_nat (String.length ext)) name +:+ ext
    else filename in
  if Py.nonempty filename then filename else "index.html".

(** The name after the two substitutions of [sanitize_filename], before its
    length is looked at. *)
Definition cleaned (filename : string) : string :=
  Py.filter (fun c => negb (is_control_char c))
    (Py.map (fun c => if is_invalid_char c then "_"%char else c) filename).

(** A character that neither substitution of [sanitize_filename] touches. *)
Definition is_clean_char (c : ascii) : bool :=
  negb (is_invalid_char c) && negb (is_control_char c).

(** [get_file_extension]: [split] always returns a first piece. *)
Definition get_file_extension (url : string) : string :=
  let path := hd EmptyString
                (Py.split "#" (hd EmptyString (Py.split "?" url))) in
  Py.lower (snd (OsPath.splitext path)).

Definition doc_indicators : list string :=
  ["/docs/"; "/guide/"; "/tutorial/"; "/api/"; "/reference/"; "/cli/";
   "/overview/"].

(** [is_documentation_url]. *)
Definition is_documentation_url (url : string) : bool :=
  existsb (fun indicator => Py.contains indicator (Py.lower url))
    doc_indicators.

(** The nearest integer to [num / den] for [den > 0], a tie going to the
    even one. *)
Definition round_half_even (num den : Z) : Z :=
  let q := (num / den)%Z in
  let r := (num mod den)%Z in
  if (2 * r <? den)%Z then q
  else if (den <? 2 * r)%Z then (q + 1)%Z
  else if Z.even q then q else (q + 1)%Z.

(** The format [.1f] of the number [num / den]: its tenths rounded to the
    nearest, then the integer part, a dot and one digit. *)
Definition format_1f (num den : Z) : string :=
  let tenths := round_half_even (10 * num) den in
  pretty (tenths / 10)%Z +:+ "." +:+ pretty (tenths mod 10)%Z.

(** The loop of [format_bytes].  The value of [bytes_value] is kept as the
    exact quotient [num / den]: for a byte count below 2^53 the conversion
    to a float and the divisions by 1024.0 are exact, and the format rounds
    the exact value. *)
Fixpoint format_units (units : list string) (num den : Z) : string :=
  match units with
  | [] => format_1f num den +:+ " TB"
  | unit :: units' =>
      if (num <? 1024 * den)%Z then format_1f num den +:+ " " +:+ unit
      else format_units units' num (1024 * den)%Z
  end.

Definition format_bytes (bytes_value : Z) : string :=
  format_units ["B"; "KB"; "MB"; "GB"] bytes_value 1.

End Utils.

(** ** The outside world *)

(** What [session.get(url, timeout=TIMEOUT)] and the following lines of the
    [try] block of [download_page] produce: an exception (transport error,
    timeout, [raise_for_status]) or the length of [response.content] and
    [response.text]. *)
Inductive Response :=
  | Raises
  | Responds (content_length : N) (text : string).

(** What a sitemap request produces: an exception, or a status code and the
    stripped texts of the [loc] elements the XML parser finds. *)
Inductive SitemapResponse :=
  | SitemapRaises
  | SitemapAnswers (status_code : nat) (locs : list string).

(** What [open(file_path, 'w')] followed by [f.write(content)] does: the file
    is written, or an exception is raised, leaving no file or a file with
    a part of the content behind. *)
Inductive WriteOutcome :=
  | Written
  | WriteFails (left_behind : option string).

(** A file system: regular files with their contents, and directories.  A
    path name denotes a file by its text. *)
Record FileSystem := mkFS {
  files : gmap string string;
  dirs : gset string }.

(** Observations kept next to the crawler state: the requests of
    [download_page] and the write attempts of [save_page], oldest last. *)
Inductive Event :=
  | Download (url : string) (r : Response)
  | Save (url : string) (file_path : string) (o : WriteOutcome).

(** ** [crawler.py] *)

Module Crawler.
Import Urllib UrllibJoin Config Utils.

(** The fields of [AngularDocsCrawler], the file system and the
    observations. *)
Record State := mkState {
  visited_urls : gset string;
  failed_urls : gset string;
  downloaded_files : gmap string string;
  fs : FileSystem;
  trace : list Event }.

(** The result of a method that may raise: the state comes back either way. *)
Inductive Res (A : Type) :=
  | Ret (a : A) (st : State)
  | Exn (st : State).
Arguments Ret {A} a st.
Arguments Exn {A} st.

Definition res_state {A} (r : Res A) : State :=
  match r with Ret _ st => st | Exn st => st end.

(** [os.path.exists]. *)
Definition path_exists (f : FileSystem) (p : string) : bool :=
  bool_decide (p ∈ dom (files f) ∪ dirs f).

(** The path itself and the prefixes that end before a slash. *)
Fixpoint ancestors_from (pre rest : string) : list string :=
  match rest with
  | EmptyString => [pre]
  | String a rest' =>
      let tail := ancestors_from (pre +:+ String a EmptyString) rest' in
      if Ascii.eqb a "/" && Py.nonempty pre then pre :: tail else tail
  end.

Definition ancestors (p : string) : list string :=
  ancestors_from EmptyString p.

(** While [file_path] exists, try [name_counter ext]; [None] when the fuel
    runs out.
<<
    counter = 1
    original_path = file_path
    while os.path.exists(file_path):
        name, ext = os.path.splitext(original_path)
        file_path = f"{name}_{counter}{ext}"
        counter += 1
>> *)
Definition candidate (original_path : string) (counter : nat) : string :=
  let '(name, ext) := OsPath.splitext original_path in
  name +:+ "_" +:+ pretty counter +:+ ext.

Fixpoint free_path (fuel : nat) (f : FileSystem)
    (original_path file_path : string) (counter : nat) : option string :=
  match fuel with
  | O => None
  | S fuel' =>
      if path_exists f file_path
      then free_path fuel' f original_path
             (candidate original_path counter) (S counter)
      else Some file_path
  end.

(** Enough fuel for any file system: one test per existing path, and two. *)
Definition enough_fuel (f : FileSystem) : nat :=
  S (S (size (dom (files f) ∪ dirs f))).

(** The target of a page, lines 132 to 143 of [save_page]: the directory and
    the file name before sanitising. *)
Definition page_target (docs_dir : string) (path_parts : list string)
  : string * string :=
  let filename :=
    if (length path_parts =? 0)%nat
       || String.eqb (List.last path_parts EmptyString) "docs"
    then "index.html"
    else List.last path_parts EmptyString +:+ ".html" in
  let dir_path :=
    if (1 <? length path_parts)%nat
    then OsPath.join docs_dir (removelast path_parts)
    else docs_dir in
  (dir_path, filename).

Section World.

Variable check_bracketed_host : string -> bool.
Variable cwd : string.
(** The network, asked for the [n]-th observation. *)
Variable session_get : nat -> string -> Response.
Variable sitemap_get : string -> SitemapResponse.
(** The [href] values of the [a] and [link] elements the HTML parser finds. *)
Variable find_hrefs : string -> list string.
(** The order in which a set with the given elements is iterated. *)
Variable iter_order : list string -> list string.
(** Whether creating a directory is refused, and what writing a file does. *)
Variable mkdir_refused : nat -> string -> bool.
Variable open_write : nat -> string -> string -> WriteOutcome.

Definition is_valid_url (url : string) : option bool :=
  match urlparse check_bracketed_host url "" with
  | None => None
  | Some parsed =>
      if Py.nonempty (netloc parsed)
         && negb (Py.mem (netloc parsed) ["angular.dev"; "www.angular.dev"])
      then Some false
      else if existsb (fun pattern => Py.contains pattern url) EXCLUDE_PATTERNS
      then Some false
      else if negb (Py.contains "/docs" url) && negb (String.eqb url BASE_URL)
      then Some false
      else Some true
  end.

Definition normalize_url (url : string) : option string :=
  match urlparse check_bracketed_host url "" with
  | None => None
  | Some parsed =>
      Some (urlunparse (scheme parsed) (netloc parsed) (path parsed)
              (params parsed) (query parsed) "")
  end.

(** The body of the [for loc] loop: the set so far and whether the loop ended
    without an exception. *)
Fixpoint scan_locs (locs : list string) (discovered : gset string)
  : gset string * bool :=
  match locs with
  | [] => (discovered, true)
  | url :: rest =>
      match is_valid_url url with
      | None => (discovered, false)
      | Some false => scan_locs rest discovered
      | Some true =>
          match normalize_url url with
          | None => (discovered, false)
          | Some n => scan_locs rest ({[n]} ∪ discovered)
          end
      end
  end.

Fixpoint try_sitemaps (sitemap_urls : list string) (discovered : gset string)
  : gset string :=
  match sitemap_urls with
  | [] => discovered
  | sitemap_url :: rest =>
      match sitemap_get sitemap_url with
      | SitemapRaises => try_sitemaps rest discovered
      | SitemapAnswers status_code locs =>
          if (status_code =? 200)%nat then
            let '(discovered, finished) := scan_locs locs discovered in
            if finished then discovered else try_sitemaps rest discovered
          else try_sitemaps rest discovered
      end
  end.

(** [None] when one of the [urljoin] calls raises. *)
Definition discover_urls_from_sitemap : option (gset string) :=
  match mapM (urljoin check_bracketed_host BASE_URL)
          ["/sitemap.xml"; "/sitemap_index.xml"; "/docs/sitemap.xml"] with
  | None => None
  | Some sitemap_urls => Some (try_sitemaps sitemap_urls ∅)
  end.

Fixpoint collect_links (base_url : string) (hrefs : list string)
    (links : gset string) : option (gset string) :=
  match hrefs with
  | [] => Some links
  | href :: rest =>
      match urljoin check_bracketed_host base_url href with
      | None => None
      | Some full_url =>
      match normalize_url full_url with
      | None => None
      | Some normalized_url =>
      match is_valid_url normalized_url with
      | None => None
      | Some valid =>
          collect_links base_url rest
            (if valid then {[normalized_url]} ∪ links else links)
      end end end
  end.

Definition extract_links_from_page (html_content base_url : string)
  : option (gset string) :=
  collect_links base_url (find_hrefs html_content) ∅.

(** The body of the [for element] loop of [extract_links_from_page] for one
    [href]: the normalised URL and whether it is valid; [None] when one of
    the three calls raises. *)
Definition link_of_href (base_url href : string) : option (string * bool) :=
  full_url ← urljoin check_bracketed_host base_url href;
  normalized_url ← normalize_url full_url;
  valid ← is_valid_url normalized_url;
  Some (normalized_url, valid).

Definition record (e : Event) (st : State) : State :=
  mkState (visited_urls st) (failed_urls st) (downloaded_files st) (fs st)
          (e :: trace st).

Definition download_page (url : string) (st : State) : option string * State :=
  let r := session_get (length (trace st)) url in
  let st := record (Download url r) st in
  match r with
  | Raises =>
      (None, mkState (visited_urls st) ({[url]} ∪ failed_urls st)
                     (downloaded_files st) (fs st) (trace st))
  | Responds content_length text =>
      if (MAX_FILE_SIZE <? content_length)%N then (None, st)
      else (Some text, st)
  end.

(** [Path(path).mkdir(parents=True, exist_ok=True)]; [None] when it raises:
    the operating system refuses, or a regular file is in the way. *)
Definition ensure_directory (tick : nat) (p : string) (f : FileSystem)
  : option FileSystem :=
  if mkdir_refused tick p then None
  else if existsb (fun a => bool_decide (a ∈ dom (files f))) (ancestors p)
  then None
  else Some (mkFS (files f) (list_to_set (ancestors p) ∪ dirs f)).

Definition with_fs (f : FileSystem) (st : State) : State :=
  mkState (visited_urls st) (failed_urls st) (downloaded_files st) f
          (trace st).

(** The directory and the file name [save_page] computes for a URL, before
    the name is sanitised; [None] when [urlparse] raises. *)
Definition save_target (url : string) : option (string * string) :=
  match urlparse check_bracketed_host url "" with
  | None => None
  | Some parsed =>
      let path_parts :=
        List.filter Py.nonempty (Py.split "/" (path parsed)) in
      Some (page_target (DOCS_DIR cwd) path_parts)
  end.

Definition save_page (url content : string) (st : State) : Res string :=
  match save_target url with
  | None => Exn st
  | Some (dir_path, filename) =>
      match ensure_directory (length (trace st)) dir_path (fs st) with
      | None => Exn st
      | Some f =>
          let filename := sanitize_filename filename in
          let file_path := OsPath.join dir_path [filename] in
          match free_path (enough_fuel f) f file_path file_path 1 with
          | None => Exn (with_fs f st)
          | Some file_path =>
              let o := open_write (length (trace st)) file_path content in
              let st := record (Save url file_path o) (with_fs f st) in
              match o with
              | Written =>
                  Ret file_path
                    (mkState (visited_urls st) (failed_urls st)
                       (<[url := file_path]> (downloaded_files st))
                       (mkFS (<[file_path := content]> (files f)) (dirs f))
                       (trace st))
              | WriteFails None => Ret "" st
              | WriteFails (Some part) =>
                  Ret ""
                    (with_fs (mkFS (<[file_path := part]> (files f)) (dirs f))
                       st)
              end
          end
      end
  end.

(** The state of the [while] loop of [crawl]. *)
Record Loop := mkLoop {
  self : State;
  urls_to_process : list string;
  processed_count : nat }.

Inductive Outcome :=
  | Running (l : Loop)
  | Finished (l : Loop)
  | Raised (l : Loop).

Definition loop_of (o : Outcome) : Loop :=
  match o with Running l | Finished l | Raised l => l end.

Definition mark_visited (url : string) (st : State) : State :=
  mkState ({[url]} ∪ visited_urls st) (failed_urls st) (downloaded_files st)
          (fs st) (trace st).

(** The [for link in new_links] loop. *)
Definition unvisited (st : State) (new_links : gset string) : list string :=
  List.filter (fun link => bool_decide (link ∉ visited_urls st))
    (iter_order (elements new_links)).

(** One turn of [while urls_to_process]. *)
Definition loop_body (l : Loop) : Outcome :=
  match urls_to_process l with
  | [] => Finished l
  | url :: rest =>
      if bool_decide (url ∈ visited_urls (self l))
      then Running (mkLoop (self l) rest (processed_count l))
      else
        let '(content, st) := download_page url (mark_visited url (self l)) in
        match content with
        | Some (String _ _ as text) =>
            match save_page url text st with
            | Exn st => Raised (mkLoop st rest (processed_count l))
            | Ret _ st =>
                match extract_links_from_page text url with
                | None => Raised (mkLoop st rest (processed_count l))
                | Some new_links =>
                    Running (mkLoop st (rest ++ unvisited st new_links)
                                    (S (processed_count l)))
                end
            end
        | _ => Running (mkLoop st rest (processed_count l))
        end
  end.

Fixpoint run (fuel : nat) (l : Loop) : Outcome :=
  match fuel with
  | O => Running l
  | S fuel' =>
      match loop_body l with
      | Running l' => run fuel' l'
      | o => o
      end
  end.

(** A new crawler on a given file system: empty collections. *)
Definition fresh (f : FileSystem) : State := mkState ∅ ∅ ∅ f [].

(** [__init__]: the three output directories are created; [None] when one
    of them cannot be. *)
Definition init (f : FileSystem) : option State :=
  f ← ensure_directory 0 (OUTPUT_DIR cwd) f;
  f ← ensure_directory 0 (DOCS_DIR cwd) f;
  f ← ensure_directory 0 (ASSETS_DIR cwd) f;
  Some (fresh f).

(** The frontier [crawl] starts from; [None] when a [urljoin] raises. *)
Definition initial_urls : option (list string) :=
  sections ← mapM (urljoin check_bracketed_host BASE_URL) PRIORITY_SECTIONS;
  sitemap_urls ← discover_urls_from_sitemap;
  Some (iter_order (elements
          ({[BASE_URL; DOCS_BASE_URL]} ∪ list_to_set sections ∪ sitemap_urls))).

Record Summary := mkSummary {
  total_pages : nat;
  successful_downloads : nat;
  failed_downloads : nat;
  summary_downloaded_files : gmap string string;
  summary_failed_urls : list string }.

Definition summary (l : Loop) : Summary :=
  mkSummary (processed_count l)
    (size (downloaded_files (self l)))
    (size (failed_urls (self l)))
    (downloaded_files (self l))
    (iter_order (elements (failed_urls (self l)))).

(** [crawl] on a new crawler, for at most [fuel] turns of the loop. *)
Definition start (st : State) (frontier : list string) : Loop :=
  mkLoop st frontier 0.

Definition crawl (fuel : nat) (f : FileSystem) : option Outcome :=
  st ← init f;
  frontier ← initial_urls;
  Some (run fuel (start st frontier)).

End World.

(** *** What the observations say *)

Definition event_url (e : Event) : string :=
  match e with Download url _ => url | Save url _ _ => url end.

(** The URLs requested by [download_page], and those [save_page] tried to
    write, newest first. *)
Definition downloads (t : list Event) : list string :=
  omap (fun e => match e with Download url _ => Some url | _ => None end) t.

Definition saves (t : list Event) : list string :=
  omap (fun e => match e with Save url _ _ => Some url | _ => None end) t.

(** The fetch succeeded: a response came back and was not over the size
    limit. *)
Definition fetch_succeeded (r : Response) : bool :=
  match r with
  | Raises => false
  | Responds content_length _ => negb (MAX_FILE_SIZE <? content_length)%N
  end.

(** The fetch succeeded and the text is not empty: [if content] holds. *)
Definition has_content (r : Response) : bool :=
  match r with
  | Responds content_length (String _ _) =>
      negb (MAX_FILE_SIZE <? content_length)%N
  | _ => false
  end.

(** The value [download_page] returns on a response. *)
Definition content_of (r : Response) : option string :=
  match r with
  | Raises => None
  | Responds content_length text =>
      if (MAX_FILE_SIZE <? content_length)%N then None else Some text
  end.

Definition count_downloads (p : Response -> bool) (t : list Event) : nat :=
  length (List.filter
            (fun e => match e with Download _ r => p r | _ => false end) t).

(** The paths the collision loop of [save_page] tries, in order: the
    original path, then the numbered ones from 1 on. *)
Definition attempt (original_path : string) (k : nat) : string :=
  match k with
  | O => original_path
  | S _ => candidate original_path k
  end.

(** The observations that concern one URL. *)
Definition about (url : string) (t : list Event) : list Event :=
  List.filter (fun e => bool_decide (event_url e = url)) t.

(** The facts that hold of the crawler state all along a crawl. *)
Record StateInv (st : State) : Prop := mkStateInv {
  inv_failed_visited : failed_urls st ⊆ visited_urls st;
  inv_downloaded_visited : dom (downloaded_files st) ⊆ visited_urls st;
  inv_disjoint : failed_urls st ## dom (downloaded_files st);
  inv_events_visited :
    forall e, e ∈ trace st -> event_url e ∈ visited_urls st;
  inv_downloads_nodup : NoDup (downloads (trace st));
  inv_saves_nodup : NoDup (saves (trace st));
  inv_downloaded_saved :
    forall url, url ∈ dom (downloaded_files st) ->
      exists p, Save url p Written ∈ trace st }.

Definition LoopInv (l : Loop) : Prop :=
  StateInv (self l)
  /\ processed_count l = count_downloads has_content (trace (self l)).


(** The counters of the loop against the sizes of the collections. *)
Record CountInv (l : Loop) : Prop := mkCountInv {
  inv_visited_requested :
    forall url, url ∈ visited_urls (self l) ->
      url ∈ downloads (trace (self l));
  inv_failed_raised :
    forall url, url ∈ failed_urls (self l) <->
      Download url Raises ∈ trace (self l);
  inv_saved_counted :
    size (downloaded_files (self l)) <= processed_count l;
  inv_counted_visited :
    processed_count l + size (failed_urls (self l))
      <= size (visited_urls (self l)) }.

(** The three addresses [discover_urls_from_sitemap] asks, in order: the
    values of its [urljoin] calls. *)
Definition sitemap_addresses : list string :=
  ["https://angular.dev/sitemap.xml"; "https://angular.dev/sitemap_index.xml";
   "https://angular.dev/docs/sitemap.xml"].

(** A sitemap request after which the next address is tried: it raised, or
    the status is not 200. *)
Definition sitemap_fails (r : SitemapResponse) : bool :=
  match r with
  | SitemapRaises => true
  | SitemapAnswers status_code _ => negb (status_code =? 200)%nat
  end.


(** A URL the loop has dealt with or still has in its queue. *)
Definition pending (l : Loop) (url : string) : Prop :=
  url ∈ visited_urls (self l) \/ url ∈ urls_to_process l.

(** A URL among the links [extract_links_from_page] returned for a page
    that was fetched with a content. *)
Definition found_on_a_page (check_bracketed_host : string -> bool)
    (find_hrefs : string -> list string) (t : list Event) (url : string)
  : Prop :=
  exists source content_length text links,
    Download source (Responds content_length text) ∈ t
    /\ has_content (Responds content_length text) = true
    /\ extract_links_from_page check_bracketed_host find_hrefs text source
         = Some links
    /\ url ∈ links.

End Crawler.

(** * Concrete runs *)

Module Scenarios.
Import Urllib Config Crawler.

Definition accept_host : string -> bool := fun _ => true.
Definition home : string := "/home/user".
Definition no_sitemap : string -> SitemapResponse := fun _ => SitemapRaises.
Definition in_order : list string -> list string := fun xs => xs.
Definition mkdir_allowed : nat -> string -> bool := fun _ _ => false.
Definition disk_ok : nat -> string -> string -> WriteOutcome :=
  fun _ _ _ => Written.
Definition empty_disk : FileSystem := mkFS ∅ ∅.

(** A site whose home page links to one guide and to the playground; every
    other request fails. *)
Definition home_page : string := "<a href=/docs/guide#install>".
Definition site : nat -> string -> Response :=
  fun _ url => if String.eqb url BASE_URL then Responds 28 home_page
               else Raises.
Definition site_hrefs : string -> list string :=
  fun _ => ["/docs/guide#install"; "/playground/x"].

(** A server that answers every request with a body over the limit. *)
Definition too_big : N := (MAX_FILE_SIZE + 1)%N.
Definition big_site : nat -> string -> Response :=
  fun _ _ => Responds too_big "x".

(** A server that answers every request with status 200 and no body. *)
Definition blank_site : nat -> string -> Response :=
  fun _ _ => Responds 0 "".
Definition no_hrefs : string -> list string := fun _ => [].

Definition from_base : Loop := start (fresh empty_disk) [BASE_URL].
Definition from_docs : Loop := start (fresh empty_disk) [DOCS_BASE_URL].

Definition site_run (n : nat) : Outcome :=
  run accept_host home site site_hrefs in_order mkdir_allowed disk_ok n
    from_base.


(** The state in which that crawl finishes. *)
Definition site_final : Loop := loop_of (site_run 5).




(** The one link of the home page of [site], and that crawl after its first
    turn. *)
Definition guide : string := "https://angular.dev/docs/guide".
Definition after_home : Loop := loop_of (site_run 1).

(** A page whose one href has an opening bracket in its host. *)
Definition broken_href : string := "http://[".
Definition broken_hrefs : string -> list string := fun _ => [broken_href].

(** Sitemaps: the first address is answered with the status 404, the second
    with three locs, of which one is on another host and one is not
    documentation; the third raises. *)
Definition forms : string := "https://angular.dev/docs/forms".
Definition index_locs : list string :=
  [forms; "https://example.com/docs"; "https://angular.dev/blog"].
Definition index_sitemap : string -> SitemapResponse :=
  fun url =>
    if String.eqb url "https://angular.dev/sitemap.xml"
    then SitemapAnswers 404 []
    else if String.eqb url "https://angular.dev/sitemap_index.xml"
    then SitemapAnswers 200 index_locs
    else SitemapRaises.

(** A sitemap whose second loc cannot be parsed. *)
Definition bad_loc : string := "http://[::1".
Definition pipes : string := "https://angular.dev/docs/pipes".
Definition torn_sitemap : string -> SitemapResponse :=
  fun _ => SitemapAnswers 200 [forms; bad_loc; pipes].



End Scenarios.

(** * Facts about strings *)

Module PyFacts.
Import Py (is_not, starts_with_p).

Lemma append_nil_l s : "" +:+ s = s.
Proof. reflexivity. Qed.

Lemma append_cons a s t : String a s +:+ t = String a (s +:+ t).
Proof. reflexivity. Qed.

Lemma append_nil_r s : s +:+ "" = s.
Proof.
  induction s as [|a s IH]; [done|]. by rewrite append_cons, IH.
Qed.

Lemma append_assoc s1 s2 s3 : (s1 +:+ s2) +:+ s3 = s1 +:+ (s2 +:+ s3).
Proof.
  induction s1 as [|a s1 IH]; [done|]. by rewrite !append_cons, IH.
Qed.

Lemma length_append s1 s2 :
  String.length (s1 +:+ s2) = String.length s1 + String.length s2.
Proof.
  induction s1 as [|a s1 IH]; [done|]. rewrite append_cons. simpl. by rewrite IH.
Qed.

Lemma append_inv_head s s1 s2 : s +:+ s1 = s +:+ s2 -> s1 = s2.
Proof.
  induction s as [|a s IH]; [done|]. rewrite !append_cons. intros [= H]. auto.
Qed.

Lemma append_inv_tail s s1 s2 : s1 +:+ s = s2 +:+ s -> s1 = s2.
Proof.
  revert s2. induction s1 as [|a s1 IH]; intros [|b s2] H.
  - done.
  - apply (f_equal String.length) in H.
    rewrite append_nil_l, append_cons in H. simpl in H.
    rewrite length_append in H. lia.
  - apply (f_equal String.length) in H.
    rewrite append_nil_l, append_cons in H. simpl in H.
    rewrite length_append in H. lia.
  - rewrite !append_cons in H. injection H as -> H. f_equal. by apply IH.
Qed.

(** *** Characters of a string *)

Lemma forallb_append p s1 s2 :
  Py.forallb p (s1 +:+ s2) = Py.forallb p s1 && Py.forallb p s2.
Proof.
  induction s1 as [|a s1 IH]; [done|].
  rewrite append_cons. simpl. by rewrite IH, andb_assoc.
Qed.

Lemma forallb_impl (p q : ascii -> bool) s :
  (forall a, p a = true -> q a = true) ->
  Py.forallb p s = true -> Py.forallb q s = true.
Proof.
  intros Hpq. induction s as [|a s IH]; simpl; [done|].
  intros [Ha Hs]%andb_true_iff. rewrite (Hpq _ Ha). simpl. auto.
Qed.

Lemma char_in_forallb c s :
  Py.char_in c s = negb (Py.forallb (is_not c) s).
Proof.
  induction s as [|a s IH]; simpl; [done|].
  unfold is_not at 1. rewrite IH. by destruct (Ascii.eqb a c).
Qed.

Lemma char_in_false c s :
  Py.char_in c s = false <-> Py.forallb (is_not c) s = true.
Proof. rewrite char_in_forallb. by destruct (Py.forallb _ _). Qed.



Lemma forallb_filter p q s :
  Py.forallb p s = true -> Py.forallb p (Py.filter q s) = true.
Proof.
  induction s as [|a s IH]; simpl; [done|].
  intros [Ha Hs]%andb_true_iff. destruct (q a); simpl; [rewrite Ha|]; auto.
Qed.

Lemma forallb_filter_self q s : Py.forallb q (Py.filter q s) = true.
Proof.
  induction s as [|a s IH]; simpl; [done|].
  destruct (q a) eqn:E; simpl; [rewrite E|]; auto.
Qed.

Lemma filter_id q s : Py.forallb q s = true -> Py.filter q s = s.
Proof.
  induction s as [|a s IH]; simpl; [done|].
  intros [-> Hs]%andb_true_iff. by rewrite IH.
Qed.

Lemma filter_append q s1 s2 :
  Py.filter q (s1 +:+ s2) = Py.filter q s1 +:+ Py.filter q s2.
Proof.
  induction s1 as [|a s1 IH]; [done|].
  rewrite append_cons. simpl. destruct (q a); by rewrite ?append_cons, IH.
Qed.

Lemma forallb_drop p n s :
  Py.forallb p s = true -> Py.forallb p (Py.drop n s) = true.
Proof.
  revert s. induction n as [|n IH]; intros [|a s]; simpl; try done.
  intros [_ Hs]%andb_true_iff. auto.
Qed.

(** *** [partition], [rpartition] and [break] *)

Lemma partition_Some c s h t :
  Py.partition c s = Some (h, t) ->
  s = h +:+ String c t /\ Py.forallb (is_not c) h = true.
Proof.
  revert h. induction s as [|a s IH]; intros h; simpl; [done|].
  destruct (Ascii.eqb a c) eqn:E.
  - apply Ascii.eqb_eq in E as ->. by intros [= <- <-].
  - destruct (Py.partition c s) as [[h' t']|]; [|done].
    intros [= <- <-]. destruct (IH h' eq_refl) as [-> Hh].
    split; [done|]. simpl. unfold is_not at 1. by rewrite E.
Qed.

Lemma partition_None c s :
  Py.partition c s = None <-> Py.forallb (is_not c) s = true.
Proof.
  induction s as [|a s IH]; simpl; [done|]. unfold is_not at 1.
  destruct (Ascii.eqb a c); simpl; [done|].
  rewrite <- IH. by destruct (Py.partition c s) as [[??]|].
Qed.

Lemma partition_append c h t :
  Py.forallb (is_not c) h = true ->
  Py.partition c (h +:+ String c t) = Some (h, t).
Proof.
  induction h as [|a h IH].
  - intros _. simpl. by rewrite Ascii.eqb_refl.
  - rewrite append_cons. simpl. unfold is_not at 1.
    intros [Ha Hh]%andb_true_iff. apply negb_true_iff in Ha.
    by rewrite Ha, IH.
Qed.

Lemma partition_append_l c s h t rest :
  Py.partition c s = Some (h, t) ->
  Py.partition c (s +:+ rest) = Some (h, t +:+ rest).
Proof.
  intros [-> Hh]%partition_Some.
  rewrite append_assoc, append_cons. by apply partition_append.
Qed.

Lemma rpartition_Some c s h t :
  Py.rpartition c s = Some (h, t) ->
  s = h +:+ String c t /\ Py.forallb (is_not c) t = true.
Proof.
  revert h. induction s as [|a s IH]; intros h; simpl; [done|].
  destruct (Py.rpartition c s) as [[h' t']|] eqn:E.
  - intros [= <- <-]. destruct (IH h' eq_refl) as [-> Ht]. done.
  - destruct (Ascii.eqb a c) eqn:Ea; [|done].
    apply Ascii.eqb_eq in Ea as ->. intros [= <- <-]. split; [done|].
    clear IH. induction s as [|b s IH]; simpl in *; [done|].
    destruct (Py.rpartition c s) as [[??]|]; [done|].
    unfold is_not at 1. destruct (Ascii.eqb b c); [done|]. simpl. auto.
Qed.

Lemma rpartition_None c s :
  Py.rpartition c s = None <-> Py.forallb (is_not c) s = true.
Proof.
  induction s as [|a s IH]; simpl; [done|]. unfold is_not at 1.
  destruct (Py.rpartition c s) as [[??]|].
  - split; [done|]. intros [_ H]%andb_true_iff. by apply IH in H.
  - destruct (Ascii.eqb a c); simpl; [done|]. tauto.
Qed.

Lemma rpartition_append c h t :
  Py.forallb (is_not c) t = true ->
  Py.rpartition c (h +:+ String c t) = Some (h, t).
Proof.
  intros Ht. induction h as [|a h IH].
  - rewrite append_nil_l. simpl.
    apply rpartition_None in Ht. by rewrite Ht, Ascii.eqb_refl.
  - rewrite append_cons. simpl. by rewrite IH.
Qed.

Lemma break_spec q s :
  s = fst (Py.break q s) +:+ snd (Py.break q s)
  /\ Py.forallb (fun a => negb (q a)) (fst (Py.break q s)) = true
  /\ starts_with_p q (snd (Py.break q s)) = true.
Proof.
  induction s as [|a s IH]; simpl; [done|].
  destruct (q a) eqn:E; simpl; [by rewrite E|].
  destruct (Py.break q s) as [h t]. simpl in *.
  destruct IH as (-> & Hh & Ht). by rewrite E, Hh.
Qed.



Lemma partition_append_None c h t :
  Py.partition c h = None ->
  Py.partition c (h +:+ t)
    = match Py.partition c t with
      | Some (h', t') => Some (h +:+ h', t')
      | None => None
      end.
Proof.
  induction h as [|a h IH]; simpl.
  - intros _. rewrite append_nil_l. by destruct (Py.partition c t) as [[??]|].
  - rewrite ?append_cons. simpl. destruct (Ascii.eqb a c); [done|].
    destruct (Py.partition c h) as [[??]|]; [done|]. intros _.
    rewrite (IH eq_refl). by destruct (Py.partition c t) as [[??]|].
Qed.






(** *** [cut] *)

Lemma cut_pieces c s :
  Py.forallb (is_not c) (fst (Py.cut c s)) = true
  /\ (Py.cut c s = (s, EmptyString)
      \/ s = fst (Py.cut c s) +:+ String c (snd (Py.cut c s))).
Proof.
  unfold Py.cut. destruct (Py.partition c s) as [[h t]|] eqn:E; simpl.
  - apply partition_Some in E as [-> Hh]. auto.
  - apply partition_None in E. auto.
Qed.

Lemma cut_forallb p c s :
  Py.forallb p s = true ->
  Py.forallb p (fst (Py.cut c s)) = true
  /\ Py.forallb p (snd (Py.cut c s)) = true.
Proof.
  intros H. destruct (cut_pieces c s) as [_ [-> | Heq]]; [done|].
  rewrite Heq, forallb_append in H. simpl in H.
  apply andb_true_iff in H as [? [_ ?]%andb_true_iff]. done.
Qed.

Lemma cut_append c h t :
  Py.forallb (is_not c) h = true -> Py.cut c (h +:+ String c t) = (h, t).
Proof. intros H. unfold Py.cut. by rewrite partition_append. Qed.

Lemma cut_none c s :
  Py.forallb (is_not c) s = true -> Py.cut c s = (s, EmptyString).
Proof. intros H%partition_None. unfold Py.cut. by rewrite H. Qed.

Lemma cut_cons_same c s : Py.cut c (String c s) = (EmptyString, s).
Proof. unfold Py.cut. simpl. by rewrite Ascii.eqb_refl. Qed.

Lemma cut_cons_other c a s :
  Ascii.eqb a c = false ->
  fst (Py.cut c (String a s)) = String a (fst (Py.cut c s)).
Proof.
  intros H. unfold Py.cut. simpl. rewrite H.
  by destruct (Py.partition c s) as [[??]|].
Qed.

Lemma nonempty_true s : Py.nonempty s = true <-> s <> "".
Proof. by destruct s. Qed.


End PyFacts.

(** * Facts about [urllib.parse] *)

Module UrllibFacts.
Import Py (is_not, starts_with_p).
Import Urllib PyFacts.

Lemma split_scheme_forallb p default url :
  Py.forallb p url = true ->
  Py.forallb p (snd (split_scheme default url)) = true.
Proof.
  intros H. unfold split_scheme.
  destruct (Py.partition ":" url) as [[pre post]|] eqn:E; [|done].
  destruct (_ && _); [|done]. simpl.
  apply partition_Some in E as [-> _].
  rewrite forallb_append in H. apply andb_true_iff in H as [_ H].
  simpl in H. by apply andb_true_iff in H as [_ H].
Qed.


(** *** Characters *)

Ltac ascii_cases :=
  let c := fresh "c" in
  intros c; destruct c as [[] [] [] [] [] [] [] []];
  vm_compute; try reflexivity; try (intros; discriminate); auto.


Lemma scheme_char_not_hash : forall c,
  is_scheme_char c = true -> is_not "#" c = true.
Proof. ascii_cases. Qed.


Lemma scheme_char_lower : forall c,
  is_scheme_char c = true -> is_scheme_char (lower_char c) = true.
Proof. ascii_cases. Qed.

Lemma alpha_lower : forall c,
  is_ascii_alpha c = true -> is_ascii_alpha (lower_char c) = true.
Proof. ascii_cases. Qed.

Lemma lower_lower : forall c, lower_char (lower_char c) = lower_char c.
Proof. ascii_cases. Qed.


Lemma delim_cases : forall c,
  is_netloc_delim c = true -> c = "/"%char \/ c = "?"%char \/ c = "#"%char.
Proof. ascii_cases. Qed.

Lemma not_delim_not_hash : forall c,
  negb (is_netloc_delim c) = true -> is_not "#" c = true.
Proof. ascii_cases. Qed.

(** *** The scheme *)

Lemma map_lower_good pre :
  Py.nonempty pre = true ->
  first_char_ok is_ascii_alpha pre = true ->
  Py.forallb is_scheme_char pre = true ->
  good_scheme (Py.map lower_char pre).
Proof.
  intros Hne Hfirst Hall. repeat split.
  - by destruct pre.
  - destruct pre as [|a pre]; [done|]. simpl in *. by apply alpha_lower.
  - clear Hne Hfirst. induction pre as [|a pre IH]; simpl in *; [done|].
    apply andb_true_iff in Hall as [Ha Hall].
    by rewrite scheme_char_lower, IH.
  - clear. induction pre as [|a pre IH]; simpl; [done|].
    by rewrite lower_lower, IH.
Qed.

Lemma split_scheme_result default url :
  (split_scheme default url = (default, url))
  \/ (good_scheme (fst (split_scheme default url))
      /\ exists pre,
           url = pre +:+ String ":" (snd (split_scheme default url))).
Proof.
  unfold split_scheme.
  destruct (Py.partition ":" url) as [[pre post]|] eqn:E; [|by left].
  destruct (_ && _) eqn:C; [|by left]. right. simpl.
  apply andb_true_iff in C as [[Hne Hfirst]%andb_true_iff Hall].
  apply partition_Some in E as [-> _]. split; [|by exists pre].
  apply map_lower_good; auto.
  destruct pre as [|a pre]; [done|]. by rewrite append_cons in Hfirst.
Qed.



(** *** A fragment added to a URL changes only the fragment *)



(** What follows a non-empty network location is empty or starts with a
    slash, once the fragment and the query are cut off. *)
Lemma path_after_netloc rest :
  starts_with_p is_netloc_delim rest = true ->
  starts_with_p (Ascii.eqb "/") (fst (Py.cut "?" (fst (Py.cut "#" rest))))
    = true.
Proof.
  destruct rest as [|a rest]; [done|]. simpl.
  intros [-> | [-> | ->]]%delim_cases.
  - rewrite cut_cons_other by done. by rewrite cut_cons_other.
  - rewrite cut_cons_other by done. by rewrite cut_cons_same.
  - by rewrite cut_cons_same.
Qed.

(** *** Parameters *)

Lemma splitparams_recombine x :
  let p := fst (_splitparams x) in
  let a := snd (_splitparams x) in
  _splitparams (with_params p a) = (p, a)
  /\ (with_params p a = x \/ x = with_params p a +:+ ";").
Proof.
  unfold _splitparams, with_params.
  destruct (Py.rpartition "/" x) as [[dir last]|] eqn:Er.
  - apply rpartition_Some in Er as [-> Hlast].
    destruct (Py.partition ";" last) as [[h t]|] eqn:Ep; simpl.
    + apply partition_Some in Ep as [-> Hh].
      destruct t as [|b t]; simpl.
      * rewrite forallb_append in Hlast.
        apply andb_true_iff in Hlast as [Hh' _].
        rewrite (rpartition_append _ _ _ Hh').
        apply partition_None in Hh. rewrite Hh. split; [done|].
        right. by rewrite !append_assoc.
      * rewrite append_assoc, append_cons.
        rewrite (rpartition_append _ _ _ Hlast).
        rewrite (partition_append _ _ _ Hh). auto.
    + rewrite (rpartition_append _ _ _ Hlast), Ep. auto.
  - destruct (Py.partition ";" x) as [[h t]|] eqn:Ep; simpl.
    + apply partition_Some in Ep as [-> Hh].
      destruct t as [|b t]; simpl.
      * assert (Hh' : Py.rpartition "/" h = None).
        { apply rpartition_None. apply rpartition_None in Er.
          rewrite forallb_append in Er.
          by apply andb_true_iff in Er as [-> _]. }
        apply partition_None in Hh. rewrite Hh', Hh. auto.
      * rewrite Er, (partition_append _ _ _ Hh). auto.
    + rewrite Er, Ep. auto.
Qed.


(** A piece of a string keeps what holds of all its characters. *)
Lemma with_params_forallb q x :
  Py.forallb q x = true ->
  Py.forallb q
    (with_params (fst (_splitparams x)) (snd (_splitparams x))) = true.
Proof.
  intros H. destruct (splitparams_recombine x) as [_ [-> | Heq]]; [done|].
  rewrite Heq, forallb_append in H. by apply andb_true_iff in H as [H _].
Qed.

Lemma with_params_slash x :
  starts_with_p (Ascii.eqb "/") x = true ->
  starts_with_p (Ascii.eqb "/")
    (with_params (fst (_splitparams x)) (snd (_splitparams x))) = true.
Proof.
  intros H. destruct (splitparams_recombine x) as [_ [-> | Heq]]; [done|].
  destruct (with_params _ _) as [|c w]; [done|].
  rewrite Heq, append_cons in H. done.
Qed.

(** *** From the text of a URL to the text [urlunsplit] builds *)




Lemma prefix_cons a s b t :
  String.prefix (String a s) (String b t)
  = if ascii_dec a b then String.prefix s t else false.
Proof. reflexivity. Qed.



Section Parse.
Variable check_bracketed_host : string -> bool.

(** [urlsplit] in one expression. *)
Lemma urlsplit_eq url default :
  urlsplit check_bracketed_host url default
  = let cleaned := Py.filter safe (Py.lstrip is_c0_control_or_space url) in
    let d := Py.filter safe (Py.strip is_c0_control_or_space default) in
    let sr := split_scheme d cleaned in
    let nr := if String.prefix "//" (snd sr) then _splitnetloc (snd sr)
              else (EmptyString, snd sr) in
    let fr := Py.cut "#" (snd nr) in
    let qr := Py.cut "?" (fst fr) in
    if netloc_ok check_bracketed_host (fst nr)
    then Some (mkSplit (fst sr) (fst nr) (fst qr) (snd qr) (snd fr))
    else None.
Proof.
  unfold urlsplit. fold safe.
  destruct (split_scheme _ _) as [s rest]. simpl.
  destruct (if String.prefix "//" rest then _ else _) as [n rest2]. simpl.
  destruct (netloc_ok _ n); simpl; [|done].
  destruct (Py.cut "#" rest2) as [rest3 f]. simpl.
  by destruct (Py.cut "?" rest3).
Qed.

Lemma urlsplit_well_split url r :
  urlsplit check_bracketed_host url "" = Some r -> well_split check_bracketed_host r.
Proof.
  rewrite urlsplit_eq.
  change (Py.filter safe (Py.strip is_c0_control_or_space "")) with "".
  set (cleaned := Py.filter safe _). simpl.
  assert (Hclean : Py.forallb safe cleaned = true)
    by apply forallb_filter_self.
  pose proof (split_scheme_forallb safe "" cleaned Hclean) as Hrest.
  pose proof (split_scheme_result "" cleaned) as Hs.
  destruct (split_scheme "" cleaned) as [s rest]. simpl in *.
  assert (Hscheme : s = "" \/ good_scheme s).
  { destruct Hs as [[= -> _] | [Hg _]]; auto. }
  clear Hs.
  assert (Hn : exists n rest2,
            (if String.prefix "//" rest then _splitnetloc rest
             else (EmptyString, rest)) = (n, rest2)
            /\ Py.forallb safe n = true /\ Py.forallb safe rest2 = true
            /\ Py.forallb (fun a => negb (is_netloc_delim a)) n = true
            /\ (n <> "" -> starts_with_p is_netloc_delim rest2 = true)).
  { destruct (String.prefix "//" rest).
    - unfold _splitnetloc.
      pose proof (break_spec is_netloc_delim (Py.drop 2 rest))
        as (Heq & Hh & Ht).
      apply (forallb_drop safe 2) in Hrest.
      rewrite Heq, forallb_append in Hrest.
      apply andb_true_iff in Hrest as [? ?].
      destruct (Py.break _ _) as [n rest2]. simpl in *.
      exists n, rest2. auto 10.
    - exists "", rest. auto 10. }
  destruct Hn as (n & rest2 & -> & Hsn & Hsr & Hdn & Hstart). simpl.
  destruct (netloc_ok check_bracketed_host n) eqn:Hok; [|done].
  intros [= <-].
  destruct (cut_forallb safe "#" rest2 Hsr) as [Hs3 _].
  destruct (cut_forallb safe "?" _ Hs3) as [Hsp Hsq].
  destruct (cut_pieces "#" rest2) as [Hh3 _].
  destruct (cut_forallb (is_not "#") "?" _ Hh3) as [Hhp Hhq].
  destruct (cut_pieces "?" (fst (Py.cut "#" rest2))) as [Hqp _].
  constructor; simpl; auto.
  intros Hne. by apply path_after_netloc, Hstart.
Qed.

(** *** Parsing what [urlunsplit] builds *)



(** *** The text [urlunsplit] builds *)



(** *** Parsing what [urlunsplit] builds, in general *)






















(** What holds of every character of the parts, and of the separators,
    holds of every character of what [urlunsplit] builds. *)
Lemma urlunsplit_forallb p s n x q :
  p "/"%char = true -> p ":"%char = true -> p "?"%char = true ->
  Py.forallb p s = true -> Py.forallb p n = true ->
  Py.forallb p x = true -> Py.forallb p q = true ->
  Py.forallb p (urlunsplit s n x q "") = true.
Proof.
  intros Hslash Hcolon Hquestion Hs Hn Hx Hq. unfold urlunsplit.
  destruct (Py.nonempty n
            || Py.nonempty s && Py.mem s uses_netloc
               && negb (String.prefix "//" x)),
    (Py.nonempty x && negb (String.prefix "/" x)), (Py.nonempty s),
    (Py.nonempty q); simpl;
    rewrite ?forallb_append; simpl;
    rewrite ?forallb_append; simpl;
    rewrite ?forallb_append; simpl;
    rewrite ?Hslash, ?Hcolon, ?Hquestion, ?Hs, ?Hn, ?Hx, ?Hq; done.
Qed.

Lemma urlunparse_no_hash url p :
  urlparse check_bracketed_host url "" = Some p ->
  Py.char_in "#"
    (urlunparse (scheme p) (netloc p) (path p) (params p) (query p) "")
  = false.
Proof.
  unfold urlparse.
  destruct (urlsplit check_bracketed_host url "") as [r|] eqn:Hr; [|done].
  destruct (urlsplit_well_split _ _ Hr).
  set (cond := Py.mem (s_scheme r) uses_params && Py.char_in ";" (s_path r)).
  set (pa := if cond then _splitparams (s_path r) else (s_path r, "")).
  assert (Hpa : pa = (fst pa, snd pa)) by (by destruct pa).
  rewrite Hpa. intros [= <-]. simpl.
  change (urlunparse (s_scheme r) (s_netloc r) (fst pa) (snd pa) (s_query r) "")
    with (urlunsplit (s_scheme r) (s_netloc r) (with_params (fst pa) (snd pa))
            (s_query r) "").
  apply char_in_false, urlunsplit_forallb; try done.
  - destruct ws_scheme0 as [-> | (_ & _ & Hall & _)]; [done|].
    eapply forallb_impl; [apply scheme_char_not_hash | done].
  - eapply forallb_impl; [apply not_delim_not_hash | done].
  - unfold pa. destruct cond; [by apply with_params_forallb|].
    by destruct (s_path r).
Qed.





End Parse.
End UrllibFacts.

(** * Properties of the crawl loop *)

Module CrawlerFacts.
Import Urllib UrllibJoin Config Utils Crawler.

Lemma downloads_cons_download url r t :
  downloads (Download url r :: t) = url :: downloads t.
Proof. reflexivity. Qed.

Lemma downloads_cons_save url p o t :
  downloads (Save url p o :: t) = downloads t.
Proof. reflexivity. Qed.

Lemma downloads_saves_cons url r t :
  saves (Download url r :: t) = saves t.
Proof. reflexivity. Qed.

Lemma elem_of_downloads url t :
  url ∈ downloads t <-> exists r, Download url r ∈ t.
Proof.
  unfold downloads. rewrite list_elem_of_omap. split.
  - intros ([u r|u p o] & Hin & Heq); simplify_eq. eauto.
  - intros [r Hin]. exists (Download url r). auto.
Qed.

Lemma elem_of_saves url t :
  url ∈ saves t <-> exists p o, Save url p o ∈ t.
Proof.
  unfold saves. rewrite list_elem_of_omap. split.
  - intros ([u r|u p o] & Hin & Heq); simplify_eq. eauto.
  - intros (p & o & Hin). exists (Save url p o). auto.
Qed.

Lemma StateInv_fresh f : StateInv (fresh f).
Proof.
  constructor; simpl; try set_solver; try constructor.
Qed.

Lemma StateInv_mark_download url st st' r :
  StateInv st -> url ∉ visited_urls st ->
  visited_urls st' = {[url]} ∪ visited_urls st ->
  downloaded_files st' = downloaded_files st ->
  trace st' = Download url r :: trace st ->
  failed_urls st' = failed_urls st \/ failed_urls st' = {[url]} ∪ failed_urls st ->
  StateInv st'.
Proof.
  intros [] Hnew Hv Hd Ht Hf.
  constructor; rewrite ?Hv, ?Hd, ?Ht.
  - destruct Hf as [-> | ->]; set_solver.
  - set_solver.
  - destruct Hf as [-> | ->]; set_solver.
  - intros e [-> | He]%elem_of_cons; simpl; [set_solver|].
    apply elem_of_union_r; auto.
  - rewrite downloads_cons_download. apply NoDup_cons. split; [|done].
    intros [r' Hin]%elem_of_downloads.
    apply Hnew. exact (inv_events_visited0 _ Hin).
  - done.
  - intros u Hu. destruct (inv_downloaded_saved0 u Hu) as [p Hp].
    exists p. by apply elem_of_cons; right.
Qed.

Lemma StateInv_save url st st' p o :
  StateInv st -> url ∈ visited_urls st ->
  url ∉ failed_urls st -> url ∉ saves (trace st) ->
  visited_urls st' = visited_urls st ->
  failed_urls st' = failed_urls st ->
  trace st' = Save url p o :: trace st ->
  downloaded_files st' =
    match o with
    | Written => <[url := p]> (downloaded_files st)
    | _ => downloaded_files st
    end ->
  StateInv st'.
Proof.
  intros [] Hvis Hnf Hns Hv Hf Ht Hd.
  constructor; rewrite ?Hv, ?Hf, ?Ht, ?Hd.
  - done.
  - destruct o; [rewrite dom_insert_L|]; set_solver.
  - destruct o; [rewrite dom_insert_L|]; set_solver.
  - intros e [-> | He]%elem_of_cons; simpl; auto.
  - done.
  - simpl. apply NoDup_cons. split; done.
  - intros u. destruct o.
    + rewrite dom_insert_L. intros [Hu%elem_of_singleton | Hu]%elem_of_union.
      * subst u. exists p. by apply elem_of_cons; left.
      * destruct (inv_downloaded_saved0 u Hu) as [q Hq].
        exists q. by apply elem_of_cons; right.
    + intros Hu. destruct (inv_downloaded_saved0 u Hu) as [q Hq].
      exists q. by apply elem_of_cons; right.
Qed.

(** ** The collision loop *)

Lemma candidate_inj original_path j k :
  candidate original_path j = candidate original_path k -> j = k.
Proof.
  unfold candidate. destruct (OsPath.splitext original_path) as [name ext].
  intros H. apply PyFacts.append_inv_head in H.
  apply PyFacts.append_inv_head in H.
  apply PyFacts.append_inv_tail in H.
  by apply (inj pretty) in H.
Qed.

Lemma free_path_spec fuel f original_path file_path c :
  match free_path fuel f original_path file_path c with
  | Some p =>
      path_exists f p = false
      /\ (p = file_path
          \/ exists k, c <= k /\ p = candidate original_path k
               /\ path_exists f file_path = true
               /\ forall j, c <= j < k ->
                    path_exists f (candidate original_path j) = true)
  | None =>
      (fuel = 0 \/ path_exists f file_path = true)
      /\ forall j, c <= j < c + (fuel - 1) ->
           path_exists f (candidate original_path j) = true
  end.
Proof.
  revert file_path c. induction fuel as [|fuel IH]; intros file_path c; simpl.
  { split; [by left|]. intros j Hj. lia. }
  destruct (path_exists f file_path) eqn:E; [|by split; [|left]].
  specialize (IH (candidate original_path c) (S c)).
  destruct (free_path fuel f original_path _ _) as [p|].
  - destruct IH as [Hfree [-> | (k & Hk & -> & Hc & Hall)]]; (split; [done|]).
    + right. exists c. repeat split; auto. intros j Hj. lia.
    + right. exists k. repeat split; auto; [lia|].
      intros j Hj. destruct (decide (j = c)) as [->|]; [done|].
      apply Hall. lia.
  - destruct IH as [Hfirst Hall]. split; [by right|].
    intros j Hj. destruct (decide (j = c)) as [->|].
    + destruct Hfirst as [-> | ?]; [lia | done].
    + apply Hall. lia.
Qed.

(** The loop always finds a free path with the fuel [save_page] gives it. *)
Lemma free_path_total f original_path :
  is_Some (free_path (enough_fuel f) f original_path original_path 1).
Proof.
  pose proof (free_path_spec (enough_fuel f) f original_path original_path 1)
    as H.
  destruct (free_path _ _ _ _ _) as [p|]; [by eexists|]. exfalso.
  destruct H as [_ Hall]. unfold enough_fuel in Hall. simpl in Hall.
  set (X := dom (files f) ∪ dirs f) in *.
  set (cands := candidate original_path <$> seq 1 (S (size X))).
  assert (Hnodup : NoDup cands).
  { apply NoDup_fmap_2_strong; [|apply NoDup_seq].
    intros j k _ _. apply candidate_inj. }
  assert (Hsub : list_to_set cands ⊆ X).
  { intros q [j [-> Hj%elem_of_seq]]%elem_of_list_to_set%list_elem_of_fmap.
    specialize (Hall j ltac:(lia)). unfold path_exists in Hall.
    by apply bool_decide_eq_true in Hall. }
  apply subseteq_size in Hsub.
  rewrite size_list_to_set in Hsub by done.
  unfold cands in Hsub. rewrite length_fmap, length_seq in Hsub. lia.
Qed.

(** The path the loop returns, as the first free one among the attempts. *)
Lemma free_path_first_free f original_path :
  exists k,
    free_path (enough_fuel f) f original_path original_path 1
      = Some (attempt original_path k)
    /\ path_exists f (attempt original_path k) = false
    /\ forall j, j < k -> path_exists f (attempt original_path j) = true.
Proof.
  pose proof (free_path_spec (enough_fuel f) f original_path original_path 1)
    as H.
  destruct (free_path_total f original_path) as [p Hp]. rewrite Hp in H.
  destruct H as [Hfree [-> | (k & Hk & -> & Hc & Hall)]].
  - exists 0. repeat split; auto. intros j Hj. lia.
  - exists k. destruct k as [|k]; [lia|]. repeat split; auto.
    intros [|j] Hj; [done|]. apply Hall. lia.
Qed.

Section World.

Variable check_bracketed_host : string -> bool.
Variable cwd : string.
Variable session_get : nat -> string -> Response.
Variable find_hrefs : string -> list string.
Variable iter_order : list string -> list string.
Variable mkdir_refused : nat -> string -> bool.
Variable open_write : nat -> string -> string -> WriteOutcome.

Local Abbreviation download_page := (download_page session_get).
Local Abbreviation save_page :=
  (save_page check_bracketed_host cwd mkdir_refused open_write).
Local Abbreviation extract_links_from_page :=
  (extract_links_from_page check_bracketed_host find_hrefs).
Local Abbreviation unvisited := (unvisited iter_order).
Local Abbreviation loop_body :=
  (loop_body check_bracketed_host cwd session_get find_hrefs iter_order
     mkdir_refused open_write).
Local Abbreviation run :=
  (run check_bracketed_host cwd session_get find_hrefs iter_order
     mkdir_refused open_write).

(** What [download_page] does to the state, by the response it gets. *)
Lemma download_page_spec url st :
  let r := session_get (length (trace st)) url in
  exists st', download_page url st = (content_of r, st')
    /\ visited_urls st' = visited_urls st
    /\ downloaded_files st' = downloaded_files st
    /\ fs st' = fs st
    /\ trace st' = Download url r :: trace st
    /\ failed_urls st' =
         match r with Raises => {[url]} ∪ failed_urls st | _ => failed_urls st end.
Proof.
  intros r. unfold Crawler.download_page. fold r.
  destruct r as [|len text]; simpl.
  - eexists; repeat split; reflexivity.
  - destruct (MAX_FILE_SIZE <? len)%N eqn:E; simpl;
      eexists; repeat split; reflexivity.
Qed.

(** What [save_page] does to the state: it raises before touching the
    collections, or it records one write attempt. *)
Lemma save_page_spec url content st :
  (exists st', save_page url content st = Exn st'
     /\ visited_urls st' = visited_urls st
     /\ failed_urls st' = failed_urls st
     /\ downloaded_files st' = downloaded_files st
     /\ trace st' = trace st)
  \/ (exists p o st',
        save_page url content st =
          Ret (match o with Written => p | _ => "" end) st'
        /\ visited_urls st' = visited_urls st
        /\ failed_urls st' = failed_urls st
        /\ trace st' = Save url p o :: trace st
        /\ downloaded_files st' =
             match o with
             | Written => <[url := p]> (downloaded_files st)
             | _ => downloaded_files st
             end).
Proof.
  unfold Crawler.save_page.
  destruct (save_target _ _ _) as [[dir_path filename]|];
    [|left; eexists; eauto 10].
  destruct (ensure_directory _ _ _ _) as [f|]; [|left; eexists; eauto 10].
  destruct (free_path _ _ _ _ _) as [file_path|]; [|left; eexists; eauto 10].
  right. exists file_path, (open_write (length (trace st)) file_path content).
  destruct (open_write _ _ _) as [|[part|]]; eexists; repeat split; reflexivity.
Qed.

Lemma count_downloads_cons_download p url r t :
  count_downloads p (Download url r :: t) =
    (if p r then S (count_downloads p t) else count_downloads p t).
Proof. unfold count_downloads. simpl. by destruct (p r). Qed.

Lemma count_downloads_cons_save p url q o t :
  count_downloads p (Save url q o :: t) = count_downloads p t.
Proof. reflexivity. Qed.

(** One turn of the loop keeps the invariant; when it raises, the state
    still satisfies its part. *)
Lemma loop_body_inv l :
  LoopInv l ->
  StateInv (self (loop_of (loop_body l)))
  /\ match loop_body l with
     | Raised _ => True
     | Running l' | Finished l' => LoopInv l'
     end.
Proof.
  intros [Hst Hcount]. unfold Crawler.loop_body.
  destruct (urls_to_process l) as [|url rest] eqn:Hq.
  { simpl. split; [assumption | by split]. }
  case_bool_decide as Hvis.
  { simpl. split; [assumption | by split]. }
  destruct (download_page_spec url (mark_visited url (self l)))
    as (st1 & Hdl & Hv1 & Hd1 & Hfs1 & Ht1 & Hf1).
  simpl in Hdl, Hv1, Hd1, Hfs1, Ht1, Hf1. rewrite Hdl.
  set (r := session_get (length (trace (self l))) url) in *.
  assert (Hinv1 : StateInv st1).
  { eapply (StateInv_mark_download url (self l)); eauto.
    destruct r; auto. }
  assert (Hskip : has_content r = false ->
            count_downloads has_content (trace st1) = processed_count l).
  { intros E. by rewrite Ht1, count_downloads_cons_download, E. }
  assert (Hgo : has_content r = false ->
            StateInv st1 /\
            LoopInv (mkLoop st1 rest (processed_count l))).
  { intros E. split; [done|]. split; [done|]. simpl.
    symmetry. by apply Hskip. }
  destruct r as [|len text] eqn:Hr; simpl.
  { by apply Hgo. }
  destruct (MAX_FILE_SIZE <? len)%N eqn:Hbig; simpl.
  { apply Hgo. destruct text; simpl; by rewrite ?Hbig. }
  destruct text as [|a text]; simpl.
  { by apply Hgo. }
  clear Hgo Hskip.
  assert (Hsaved : forall st2 p o,
            visited_urls st2 = visited_urls st1 ->
            failed_urls st2 = failed_urls st1 ->
            trace st2 = Save url p o :: trace st1 ->
            downloaded_files st2 =
              match o with
              | Written => <[url := p]> (downloaded_files st1)
              | _ => downloaded_files st1
              end ->
            StateInv st2).
  { intros st2 p o ????. eapply (StateInv_save url st1); eauto.
    - rewrite Hv1. set_solver.
    - rewrite Hf1. intros Hin. apply Hvis.
      by apply (inv_failed_visited _ Hst).
    - rewrite Ht1, downloads_saves_cons.
      intros (p' & o' & Hin)%elem_of_saves.
      apply Hvis. exact (inv_events_visited _ Hst _ Hin). }
  destruct (save_page_spec url (String a text) st1)
    as [(st2 & -> & Hv2 & Hf2 & Hd2 & Ht2)
       |(p & o & st2 & -> & Hv2 & Hf2 & Ht2 & Hd2)].
  { simpl. split; [|done].
    destruct Hinv1. constructor; rewrite ?Hv2, ?Hf2, ?Hd2, ?Ht2; done. }
  specialize (Hsaved st2 p o Hv2 Hf2 Ht2 Hd2).
  destruct (extract_links_from_page _ _) as [links|]; simpl; [|done].
  split; [done|]. split; [done|]. simpl.
  rewrite Ht2, count_downloads_cons_save, Ht1, count_downloads_cons_download.
  simpl. rewrite Hbig. simpl. by rewrite Hcount.
Qed.

Lemma run_inv n l :
  LoopInv l ->
  StateInv (self (loop_of (run n l)))
  /\ match run n l with
     | Raised _ => True
     | Running l' | Finished l' => LoopInv l'
     end.
Proof.
  revert l. induction n as [|n IH]; intros l Hl; simpl.
  { split; [apply Hl | done]. }
  pose proof (loop_body_inv l Hl) as [Hst Hb].
  destruct (loop_body l) as [l'|l'|l']; auto.
Qed.

Lemma LoopInv_start f frontier : LoopInv (start (fresh f) frontier).
Proof. split; [apply StateInv_fresh | reflexivity]. Qed.

Lemma run_add n k l0 l :
  run n l0 = Running l -> run (n + k) l0 = run k l.
Proof.
  revert l0. induction n as [|n IH]; intros l0; simpl.
  - by intros [= ->].
  - destruct (loop_body l0) as [l'|l'|l'] eqn:E; try done. apply IH.
Qed.

Lemma about_cons_other url e t :
  event_url e <> url -> about url (e :: t) = about url t.
Proof. intros H. unfold about. simpl. by rewrite bool_decide_eq_false_2. Qed.

Lemma about_cons_same url e t :
  event_url e = url -> about url (e :: t) = e :: about url t.
Proof. intros H. unfold about. simpl. by rewrite bool_decide_eq_true_2. Qed.

Lemma about_nil url t :
  (forall e, e ∈ t -> event_url e <> url) -> about url t = [].
Proof.
  induction t as [|e t IH]; intros H; [done|].
  rewrite about_cons_other by (apply H; left).
  apply IH. intros e' He'. apply H. by right.
Qed.

Lemma about_unvisited url st :
  StateInv st -> url ∉ visited_urls st -> about url (trace st) = [].
Proof.
  intros Hinv Hnew. apply about_nil. intros e He <-.
  apply Hnew. by apply (inv_events_visited _ Hinv).
Qed.

(** A turn of the loop leaves alone what concerns a URL already visited. *)
Lemma loop_body_frozen url l :
  url ∈ visited_urls (self l) ->
  let st' := self (loop_of (loop_body l)) in
  url ∈ visited_urls st'
  /\ about url (trace st') = about url (trace (self l))
  /\ downloaded_files st' !! url = downloaded_files (self l) !! url.
Proof.
  intros Hin. unfold Crawler.loop_body.
  destruct (urls_to_process l) as [|u rest] eqn:Hq; [done|].
  case_bool_decide as Hvis; [done|].
  assert (Hne : u <> url) by (intros ->; done).
  destruct (download_page_spec u (mark_visited u (self l)))
    as (st1 & Hdl & Hv1 & Hd1 & Hfs1 & Ht1 & Hf1).
  simpl in Hdl, Hv1, Hd1, Hfs1, Ht1, Hf1. rewrite Hdl.
  assert (H1 : url ∈ visited_urls st1
               /\ about url (trace st1) = about url (trace (self l))
               /\ downloaded_files st1 !! url = downloaded_files (self l) !! url).
  { rewrite Hv1, Ht1, Hd1, about_cons_other by done. set_solver. }
  destruct (content_of _) as [[|a text]|]; [done| |done].
  assert (H2 : forall st2,
            visited_urls st2 = visited_urls st1 ->
            (trace st2 = trace st1 \/ exists p o, trace st2 = Save u p o :: trace st1) ->
            (downloaded_files st2 = downloaded_files st1
             \/ exists p, downloaded_files st2 = <[u := p]> (downloaded_files st1)) ->
            url ∈ visited_urls st2
            /\ about url (trace st2) = about url (trace (self l))
            /\ downloaded_files st2 !! url = downloaded_files (self l) !! url).
  { intros st2 Hv2 Ht2 Hd2. destruct H1 as (? & <- & <-).
    rewrite Hv2. split; [done|]. split.
    - destruct Ht2 as [-> | (p & o & ->)]; [done|].
      by rewrite about_cons_other.
    - destruct Hd2 as [-> | (p & ->)]; [done|].
      by rewrite lookup_insert_ne. }
  destruct (save_page_spec u (String a text) st1)
    as [(st2 & -> & Hv2 & Hf2 & Hd2 & Ht2)
       |(p & o & st2 & -> & Hv2 & Hf2 & Ht2 & Hd2)].
  { simpl. apply H2; auto. }
  assert (url ∈ visited_urls st2
          /\ about url (trace st2) = about url (trace (self l))
          /\ downloaded_files st2 !! url = downloaded_files (self l) !! url).
  { apply H2; eauto. destruct o; eauto. }
  by destruct (extract_links_from_page _ _).
Qed.

Lemma run_frozen url n l :
  url ∈ visited_urls (self l) ->
  let st' := self (loop_of (run n l)) in
  url ∈ visited_urls st'
  /\ about url (trace st') = about url (trace (self l))
  /\ downloaded_files st' !! url = downloaded_files (self l) !! url.
Proof.
  revert l. induction n as [|n IH]; intros l Hin; simpl; [done|].
  pose proof (loop_body_frozen url l Hin) as H. simpl in H.
  destruct (loop_body l) as [l'|l'|l'] eqn:E; simpl in H; try done.
  destruct H as (Hin' & <- & <-). by apply IH.
Qed.

(** C1.  In every run of the crawl loop from a new crawler, whatever the
    frontier it starts from and however long it runs, no URL is requested by
    [download_page] twice, and every requested URL is in [visited_urls]; a
    popped URL that is already visited is dropped with the state unchanged;
    a popped URL that is not is in [visited_urls] after the turn, whatever
    the outcome of the turn. *)
Theorem url_fetched_at_most_once f frontier n :
  let st := self (loop_of (run n (start (fresh f) frontier))) in
  NoDup (downloads (trace st))
  /\ (forall url, url ∈ downloads (trace st) -> url ∈ visited_urls st)
  /\ (forall l url rest,
        urls_to_process l = url :: rest -> url ∈ visited_urls (self l) ->
        loop_body l = Running (mkLoop (self l) rest (processed_count l)))
  /\ (forall l url rest,
        urls_to_process l = url :: rest ->
        url ∈ visited_urls (self (loop_of (loop_body l)))).
Proof.
  intros st.
  destruct (run_inv n _ (LoopInv_start f frontier)) as [Hinv _].
  fold st in Hinv. split; [apply Hinv|]. split.
  { intros url [r Hin]%elem_of_downloads.
    exact (inv_events_visited _ Hinv _ Hin). }
  split.
  { intros l url rest Hq Hvis. unfold Crawler.loop_body.
    rewrite Hq. by rewrite bool_decide_eq_true_2. }
  intros l url rest Hq.
  destruct (decide (url ∈ visited_urls (self l))) as [Hvis|Hvis].
  { apply loop_body_frozen, Hvis. }
  unfold Crawler.loop_body. rewrite Hq, bool_decide_eq_false_2 by done.
  destruct (download_page_spec url (mark_visited url (self l)))
    as (st1 & Hdl & Hv1 & _). rewrite Hdl. simpl in Hv1.
  assert (url ∈ visited_urls st1) by (rewrite Hv1; set_solver).
  destruct (content_of _) as [[|a text]|]; [done| |done].
  destruct (save_page_spec url (String a text) st1)
    as [(st2 & -> & Hv2 & _)|(p & o & st2 & -> & Hv2 & _)].
  { simpl. by rewrite Hv2. }
  destruct (extract_links_from_page _ _); simpl; by rewrite Hv2.
Qed.

(** C6.  At every point of a run from a new crawler, no URL is both a key of
    [downloaded_files] and a member of [failed_urls]; when the list made of
    a set holds the elements of the set, the same holds of the two
    collections of the summary. *)
Theorem downloaded_and_failed_are_exclusive f frontier n url :
  (forall xs, iter_order xs ≡ₚ xs) ->
  let l := loop_of (run n (start (fresh f) frontier)) in
  ~ (url ∈ dom (downloaded_files (self l)) /\ url ∈ failed_urls (self l))
  /\ ~ (url ∈ dom (summary_downloaded_files (summary iter_order l))
        /\ url ∈ summary_failed_urls (summary iter_order l)).
Proof.
  intros Hperm l.
  destruct (run_inv n _ (LoopInv_start f frontier)) as [Hinv _].
  fold l in Hinv. pose proof (inv_disjoint _ Hinv) as Hdis.
  split; [set_solver|]. simpl. rewrite Hperm, elem_of_elements. set_solver.
Qed.

(** C10, as amended.  In the summary of a finished run, [total_pages] is the
    number of requests that returned a non-empty content (a response that
    did not raise, was not over the size limit and whose text is not the
    empty string), whether or not the page was then saved; every requested
    URL is in [visited_urls]. *)
Theorem total_pages_counts_contentful_fetches f frontier n l :
  run n (start (fresh f) frontier) = Finished l ->
  total_pages (summary iter_order l)
    = count_downloads has_content (trace (self l))
  /\ forall url r, Download url r ∈ trace (self l) ->
       url ∈ visited_urls (self l).
Proof.
  intros Hrun.
  destruct (run_inv n _ (LoopInv_start f frontier)) as [_ Hinv].
  rewrite Hrun in Hinv. destruct Hinv as [Hst Hcount]. split; [done|].
  intros url r Hin. exact (inv_events_visited _ Hst _ Hin).
Qed.

(** C2, as amended.  When the response to the popped URL is over the size
    limit, the turn of the loop writes nothing to the file system, adds the
    URL to [visited_urls] only (not to [failed_urls], not to
    [downloaded_files]), does not count it, and the loop goes on with the
    rest of the frontier. *)
Theorem oversized_response_is_skipped l url rest content_length text :
  urls_to_process l = url :: rest ->
  url ∉ visited_urls (self l) ->
  session_get (length (trace (self l))) url = Responds content_length text ->
  (MAX_FILE_SIZE < content_length)%N ->
  exists st',
    loop_body l = Running (mkLoop st' rest (processed_count l))
    /\ fs st' = fs (self l)
    /\ downloaded_files st' = downloaded_files (self l)
    /\ failed_urls st' = failed_urls (self l)
    /\ visited_urls st' = {[url]} ∪ visited_urls (self l).
Proof.
  intros Hq Hvis Hr Hbig. unfold Crawler.loop_body.
  rewrite Hq, bool_decide_eq_false_2 by done.
  destruct (download_page_spec url (mark_visited url (self l)))
    as (st1 & Hdl & Hv1 & Hd1 & Hfs1 & Ht1 & Hf1).
  simpl in Hdl, Hv1, Hd1, Hfs1, Ht1, Hf1. rewrite Hdl, Hr in *. simpl.
  apply N.ltb_lt in Hbig. rewrite Hbig. eauto 10.
Qed.


(** A successful [save_page]: the path it returns was the first free
    attempt in the file system as it was after the directory was made; the
    content is written there and nothing else changes. *)
Lemma save_page_written url content st p st' :
  save_page url content st = Ret p st' -> p <> "" ->
  exists f original_path k,
    files f = files (fs st)
    /\ dirs (fs st) ⊆ dirs f
    /\ (exists dir_path filename,
          save_target check_bracketed_host cwd url = Some (dir_path, filename)
          /\ original_path
               = OsPath.join dir_path [sanitize_filename filename])
    /\ p = attempt original_path k
    /\ path_exists f p = false
    /\ (forall j, j < k -> path_exists f (attempt original_path j) = true)
    /\ fs st' = mkFS (<[p := content]> (files f)) (dirs f)
    /\ downloaded_files st' = <[url := p]> (downloaded_files st)
    /\ trace st' = Save url p Written :: trace st.
Proof.
  unfold Crawler.save_page.
  destruct (save_target _ _ _) as [[dir_path filename]|]; [|done].
  unfold ensure_directory.
  destruct (mkdir_refused _ _); [done|].
  destruct (existsb _ _); [done|].
  set (f := mkFS _ _).
  set (original_path := OsPath.join dir_path [sanitize_filename filename]).
  destruct (free_path_first_free f original_path) as (k & -> & Hfree & Hall).
  destruct (open_write _ _ _) as [|[part|]]; intros [= <- <-] Hp; try done.
  exists f, original_path, k. simpl.
  split; [done|]. split; [apply union_subseteq_r|]. split; [by eauto|].
  repeat split; auto.
Qed.


Local Abbreviation is_valid_url := (is_valid_url check_bracketed_host).
Local Abbreviation normalize_url := (normalize_url check_bracketed_host).
Local Abbreviation save_target := (save_target check_bracketed_host cwd).

(** C3, as amended.  With the non-empty segments of the URL path: the file
    name is [index.html] when there is no segment or the last one is
    [docs], and the last segment followed by [.html] otherwise; in both cases
    the directory is [DOCS_DIR] joined with all the segments but the last,
    which is [DOCS_DIR] itself only when there is at most one segment.  A
    file that [save_page] writes is the sanitised name in that directory, or
    one of its numbered variants. *)
Theorem save_target_follows_path_segments url parsed :
  urlparse check_bracketed_host url "" = Some parsed ->
  let path_parts := List.filter Py.nonempty (Py.split "/" (path parsed)) in
  let last_part := List.last path_parts "" in
  let dir_path := OsPath.join (DOCS_DIR cwd) (removelast path_parts) in
  let filename :=
    if (length path_parts =? 0)%nat || String.eqb last_part "docs"
    then "index.html" else last_part +:+ ".html" in
  save_target url = Some (dir_path, filename)
  /\ (length path_parts <= 1 -> dir_path = DOCS_DIR cwd)
  /\ forall content st p st',
       save_page url content st = Ret p st' -> p <> "" ->
       exists k,
         p = attempt (OsPath.join dir_path [sanitize_filename filename]) k.
Proof.
  intros Hparse path_parts last_part dir_path filename.
  assert (Hdir : length path_parts <= 1 -> dir_path = DOCS_DIR cwd).
  { unfold dir_path. destruct path_parts as [|x [|y rest]]; simpl; [done..|lia]. }
  assert (Htarget : save_target url = Some (dir_path, filename)).
  { unfold Crawler.save_target. rewrite Hparse. fold path_parts.
    unfold page_target. fold last_part. fold filename. do 2 f_equal.
    destruct (1 <? length path_parts)%nat eqn:E; [done|].
    symmetry. apply Hdir. apply Nat.ltb_ge in E. lia. }
  split; [done|]. split; [done|].
  intros content st p st' Hs Hp.
  destruct (save_page_written _ _ _ _ _ Hs Hp)
    as (f & original_path & k & _ & _ & (d & n & Ht & ->) & -> & _).
  rewrite Htarget in Ht. injection Ht as <- <-. by exists k.
Qed.

(** C4, as amended.  A URL in which the text [/docs] occurs nowhere (in the
    path, the query or any other part) and which is not [BASE_URL] is
    rejected, as soon as [urlparse] accepts it. *)
Theorem url_without_docs_is_rejected url :
  is_Some (urlparse check_bracketed_host url "") ->
  Py.contains "/docs" url = false ->
  url <> BASE_URL ->
  is_valid_url url = Some false.
Proof.
  intros [parsed Hparse] Hdocs Hbase. unfold Crawler.is_valid_url.
  rewrite Hparse, Hdocs.
  apply String.eqb_neq in Hbase. rewrite Hbase.
  destruct (Py.nonempty _ && _); [done|].
  by destruct (existsb _ EXCLUDE_PATTERNS).
Qed.



End World.
End CrawlerFacts.

(** * The theorems on concrete runs *)

Module Runs.
Import Urllib Config Crawler CrawlerFacts Scenarios.

(** A server whose every answer is over the size limit: the crawl of the
    initial URLs finishes, every one of them was requested and is visited,
    [failed_urls] is empty and no file was written. *)
Lemma oversized_url_is_not_in_failed_urls :
  big_site 0 DOCS_BASE_URL = Responds too_big "x"
  /\ (MAX_FILE_SIZE < too_big)%N
  /\ match crawl accept_host home big_site no_sitemap no_hrefs in_order
             mkdir_allowed disk_ok 20 empty_disk with
     | Some (Finished l) =>
         In (Download DOCS_BASE_URL (Responds too_big "x")) (trace (self l))
         /\ In DOCS_BASE_URL (elements (visited_urls (self l)))
         /\ elements (failed_urls (self l)) = []
         /\ failed_downloads (summary in_order l) = 0
         /\ map_to_list (files (fs (self l))) = []
     | _ => False
     end.
Proof.
  split; [reflexivity|]. split; [reflexivity|].
  vm_compute. repeat split; tauto.
Qed.

Lemma oversized_response_is_skipped_witness :
  urls_to_process from_docs = [DOCS_BASE_URL]
  /\ (DOCS_BASE_URL ∉ visited_urls (self from_docs))
  /\ big_site (length (trace (self from_docs))) DOCS_BASE_URL
       = Responds too_big "x"
  /\ (MAX_FILE_SIZE < too_big)%N
  /\ exists st',
       loop_body accept_host home big_site no_hrefs in_order mkdir_allowed
         disk_ok from_docs
       = Running (mkLoop st' [] (processed_count from_docs))
       /\ fs st' = fs (self from_docs)
       /\ downloaded_files st' = downloaded_files (self from_docs)
       /\ failed_urls st' = failed_urls (self from_docs)
       /\ visited_urls st' = {[DOCS_BASE_URL]} ∪ visited_urls (self from_docs).
Proof.
  assert (H1 : urls_to_process from_docs = [DOCS_BASE_URL]) by reflexivity.
  assert (H2 : DOCS_BASE_URL ∉ visited_urls (self from_docs))
    by apply not_elem_of_empty.
  assert (H3 : big_site (length (trace (self from_docs))) DOCS_BASE_URL
               = Responds too_big "x") by reflexivity.
  assert (H4 : (MAX_FILE_SIZE < too_big)%N) by reflexivity.
  repeat (split; [assumption|]).
  exact (oversized_response_is_skipped accept_host home big_site no_hrefs
           in_order mkdir_allowed disk_ok from_docs DOCS_BASE_URL [] too_big
           "x" H1 H2 H3 H4).
Defined.

(** The last segment of the path is [docs], and the file is put in a
    subdirectory of the documentation directory, not directly under it. *)
Lemma index_page_below_a_subdirectory :
  urlparse accept_host "https://angular.dev/guide/docs" ""
    = Some (mkParse "https" "angular.dev" "/guide/docs" "" "" "")
  /\ List.last (List.filter Py.nonempty (Py.split "/" "/guide/docs")) ""
     = "docs"
  /\ DOCS_DIR home = "/home/user/angular_docs/documentation"
  /\ save_target accept_host home "https://angular.dev/guide/docs"
     = Some ("/home/user/angular_docs/documentation/guide", "index.html")
  /\ save_target accept_host home "https://angular.dev/guide/docs"
     <> Some (DOCS_DIR home, "index.html").
Proof. vm_compute. repeat split; congruence. Qed.

Lemma save_target_follows_path_segments_witness :
  urlparse accept_host "https://angular.dev/docs/guide" ""
    = Some (mkParse "https" "angular.dev" "/docs/guide" "" "" "")
  /\ save_target accept_host home "https://angular.dev/docs/guide"
     = Some ("/home/user/angular_docs/documentation/docs", "guide.html").
Proof.
  assert (H : urlparse accept_host "https://angular.dev/docs/guide" ""
              = Some (mkParse "https" "angular.dev" "/docs/guide" "" "" ""))
    by reflexivity.
  split; [exact H|].
  exact (proj1 (save_target_follows_path_segments accept_host home
                  mkdir_allowed disk_ok _ _ H)).
Defined.

(** The path has no [/docs], the URL is not the base URL, and the URL is
    accepted all the same because its query has [/docs]. *)
Lemma docs_in_the_query_is_accepted :
  option_map path (urlparse accept_host "https://angular.dev/x?ref=/docs" "")
    = Some "/x"
  /\ Py.contains "/docs" "/x" = false
  /\ "https://angular.dev/x?ref=/docs" <> BASE_URL
  /\ is_valid_url accept_host "https://angular.dev/x?ref=/docs" = Some true.
Proof. vm_compute. repeat split; congruence. Qed.

Lemma url_without_docs_is_rejected_witness :
  is_Some (urlparse accept_host "https://angular.dev/guide" "")
  /\ Py.contains "/docs" "https://angular.dev/guide" = false
  /\ "https://angular.dev/guide" <> BASE_URL
  /\ is_valid_url accept_host "https://angular.dev/guide" = Some false.
Proof.
  assert (H1 : is_Some (urlparse accept_host "https://angular.dev/guide" ""))
    by (eexists; reflexivity).
  assert (H2 : Py.contains "/docs" "https://angular.dev/guide" = false)
    by reflexivity.
  assert (H3 : "https://angular.dev/guide" <> BASE_URL) by discriminate.
  repeat (split; [assumption|]).
  exact (url_without_docs_is_rejected accept_host _ H1 H2 H3).
Defined.





(** A server that answers every request with an empty body: eight fetches
    succeed, and [total_pages] is 0. *)
Lemma empty_pages_are_not_counted :
  match crawl accept_host home blank_site no_sitemap no_hrefs in_order
          mkdir_allowed disk_ok 20 empty_disk with
  | Some (Finished l) =>
      count_downloads fetch_succeeded (trace (self l)) = 8
      /\ total_pages (summary in_order l) = 0
  | _ => False
  end.
Proof. vm_compute. split; reflexivity. Qed.

Lemma total_pages_counts_contentful_fetches_witness :
  site_run 5 = Finished site_final
  /\ total_pages (summary in_order site_final) = 1
  /\ count_downloads has_content (trace (self site_final)) = 1.
Proof.
  assert (H : site_run 5 = Finished site_final) by (vm_compute; reflexivity).
  split; [exact H|]. split; [vm_compute; reflexivity|].
  rewrite <- (proj1 (total_pages_counts_contentful_fetches accept_host home
                       site site_hrefs in_order mkdir_allowed disk_ok
                       empty_disk [BASE_URL] 5 site_final H)).
  vm_compute; reflexivity.
Defined.

Lemma downloaded_and_failed_are_exclusive_witness :
  (forall xs, in_order xs ≡ₚ xs)
  /\ ~ (BASE_URL ∈ dom (downloaded_files (self (loop_of (site_run 5))))
        /\ BASE_URL ∈ failed_urls (self (loop_of (site_run 5)))).
Proof.
  assert (H : forall xs, in_order xs ≡ₚ xs) by (intros xs; reflexivity).
  split; [exact H|].
  exact (proj1 (downloaded_and_failed_are_exclusive accept_host home site
                  site_hrefs in_order mkdir_allowed disk_ok empty_disk
                  [BASE_URL] 5 BASE_URL H)).
Defined.



End Runs.

(** * The links of a page and the URLs of the sitemaps *)

Module LinkFacts.
Import Urllib UrllibJoin Config Utils Crawler.

Section World.

Variable check_bracketed_host : string -> bool.
Variable find_hrefs : string -> list string.

Local Abbreviation is_valid_url := (is_valid_url check_bracketed_host).
Local Abbreviation normalize_url := (normalize_url check_bracketed_host).
Local Abbreviation link_of_href := (link_of_href check_bracketed_host).
Local Abbreviation collect_links := (collect_links check_bracketed_host).
Local Abbreviation extract_links_from_page :=
  (extract_links_from_page check_bracketed_host find_hrefs).

Lemma collect_links_cons base_url href rest links :
  collect_links base_url (href :: rest) links =
    match link_of_href base_url href with
    | None => None
    | Some (normalized_url, valid) =>
        collect_links base_url rest
          (if valid then {[normalized_url]} ∪ links else links)
    end.
Proof.
  simpl. unfold Crawler.link_of_href.
  destruct (urljoin _ base_url href) as [full_url|]; simpl; [|done].
  destruct (normalize_url full_url) as [normalized_url|]; simpl; [|done].
  by destruct (is_valid_url normalized_url).
Qed.

(** The loop raises exactly when the body raises for one of the hrefs. *)
Lemma collect_links_None base_url hrefs links :
  collect_links base_url hrefs links = None
  <-> exists href, href ∈ hrefs /\ link_of_href base_url href = None.
Proof.
  revert links. induction hrefs as [|href rest IH]; intros links.
  { simpl. split; [done|]. intros (href & Hin & _).
    by apply not_elem_of_nil in Hin. }
  rewrite collect_links_cons.
  destruct (link_of_href base_url href) as [[n v]|] eqn:E.
  - rewrite IH. split.
    + intros (h & Hin & Hh). exists h. split; [by right | done].
    + intros (h & [-> | Hin]%elem_of_cons & Hh); [congruence|]. eauto.
  - split; [|done]. intros _. exists href. split; [by left | done].
Qed.

(** When it returns, the set holds what it held and the valid links. *)
Lemma collect_links_Some base_url hrefs links result :
  collect_links base_url hrefs links = Some result ->
  forall link,
    link ∈ result
    <-> link ∈ links
        \/ exists href, href ∈ hrefs
             /\ link_of_href base_url href = Some (link, true).
Proof.
  revert links. induction hrefs as [|href rest IH]; intros links.
  { simpl. intros [= <-] link. split; [by left|].
    intros [? | (href & Hin & _)]; [done|].
    by apply not_elem_of_nil in Hin. }
  rewrite collect_links_cons.
  destruct (link_of_href base_url href) as [[n v]|] eqn:E; [|done].
  intros Hrest link. rewrite (IH _ Hrest link). clear IH Hrest. split.
  - intros [Hin | (h & Hin & Hh)].
    + destruct v; [|by left].
      apply elem_of_union in Hin as [->%elem_of_singleton | Hin]; [|by left].
      right. exists href. split; [by left | done].
    + right. exists h. split; [by right | done].
  - intros [Hin | (h & [-> | Hin]%elem_of_cons & Hh)].
    + left. destruct v; [by apply elem_of_union_r | done].
    + rewrite E in Hh. injection Hh as -> ->.
      left. by apply elem_of_union_l, elem_of_singleton.
    + right. eauto.
Qed.

Lemma link_of_href_valid base_url href link :
  link_of_href base_url href = Some (link, true) ->
  is_valid_url link = Some true
  /\ normalize_url link <> None
  /\ Py.char_in "#" link = false
  /\ exists full_url,
       urljoin check_bracketed_host base_url href = Some full_url
       /\ normalize_url full_url = Some link.
Proof.
  unfold Crawler.link_of_href.
  destruct (urljoin _ base_url href) as [full_url|]; simpl; [|done].
  destruct (normalize_url full_url) as [n|] eqn:En; simpl; [|done].
  destruct (is_valid_url n) as [v|] eqn:Ev; simpl; [|done].
  intros [= -> ->]. split; [done|]. split.
  { unfold Crawler.is_valid_url in Ev. unfold Crawler.normalize_url.
    by destruct (urlparse _ link ""). }
  split; [|by exists full_url].
  unfold Crawler.normalize_url in En.
  destruct (urlparse _ full_url "") as [p|] eqn:Hp; [|done].
  injection En as <-. by eapply UrllibFacts.urlunparse_no_hash.
Qed.

(** X9.  The links [extract_links_from_page] returns are exactly the normalised
    targets of the hrefs of the page that [is_valid_url] accepts; each of
    them passes [is_valid_url] and contains no fragment mark. *)
Theorem extracted_links_are_the_valid_targets html_content base_url links :
  extract_links_from_page html_content base_url = Some links ->
  (forall link,
     link ∈ links
     <-> exists href, href ∈ find_hrefs html_content
          /\ link_of_href base_url href = Some (link, true))
  /\ (forall link, link ∈ links ->
        is_valid_url link = Some true /\ Py.char_in "#" link = false).
Proof.
  intros Hsome.
  assert (Hiff : forall link,
            link ∈ links
            <-> exists href, href ∈ find_hrefs html_content
                 /\ link_of_href base_url href = Some (link, true)).
  { intros link. rewrite (collect_links_Some _ _ _ _ Hsome link).
    split; [|by right]. intros [Hin | ?]; [|done].
    by apply not_elem_of_empty in Hin. }
  split; [done|]. intros link (href & _ & Hh)%Hiff.
  by destruct (link_of_href_valid _ _ _ Hh) as (? & _ & ? & _).
Qed.


End World.
End LinkFacts.

(** * [utils.py] *)

Module UtilsFacts.
Import OsPath Utils PyFacts.
Import Py (is_not).

(** ** Strings *)

Lemma map_append g s1 s2 :
  Py.map g (s1 +:+ s2) = Py.map g s1 +:+ Py.map g s2.
Proof.
  induction s1 as [|a s1 IH]; [done|]. rewrite append_cons. simpl.
  by rewrite IH.
Qed.

Lemma length_map g s : String.length (Py.map g s) = String.length s.
Proof. induction s as [|a s IH]; simpl; [done|]. by rewrite IH. Qed.

Lemma length_filter q s : String.length (Py.filter q s) <= String.length s.
Proof.
  induction s as [|a s IH]; simpl; [done|]. destruct (q a); simpl; lia.
Qed.

Lemma forallb_take q n s :
  Py.forallb q s = true -> Py.forallb q (Py.take n s) = true.
Proof.
  revert s. induction n as [|n IH]; intros [|a s]; simpl; try done.
  intros [-> Hs]%andb_true_iff. by apply IH.
Qed.

Lemma length_take n s :
  String.length (Py.take n s) = Nat.min n (String.length s).
Proof.
  revert s. induction n as [|n IH]; intros [|a s]; simpl; try done.
  by rewrite IH.
Qed.

Lemma forallb_slice_to q k s :
  Py.forallb q s = true -> Py.forallb q (Py.slice_to k s) = true.
Proof.
  intros H. unfold Py.slice_to. destruct (0 <=? k)%Z; by apply forallb_take.
Qed.

Lemma map_id g q s :
  (forall a, q a = true -> g a = a) ->
  Py.forallb q s = true -> Py.map g s = s.
Proof.
  intros Hg. induction s as [|a s IH]; simpl; [done|].
  intros [Ha Hs]%andb_true_iff. by rewrite (Hg _ Ha), IH.
Qed.

Lemma forallb_map g q s :
  Py.forallb q (Py.map g s) = Py.forallb (fun a => q (g a)) s.
Proof. induction s as [|a s IH]; simpl; [done|]. by rewrite IH. Qed.

Lemma forallb_and q1 q2 s :
  Py.forallb (fun a => q1 a && q2 a) s
  = Py.forallb q1 s && Py.forallb q2 s.
Proof.
  induction s as [|a s IH]; simpl; [done|]. rewrite IH.
  destruct (q1 a), (q2 a), (Py.forallb q1 s); done.
Qed.

Lemma forallb_char_in q c s :
  Py.forallb q s = true -> Py.char_in c s = true -> q c = true.
Proof.
  induction s as [|a s IH]; simpl; [done|].
  intros [Ha Hs]%andb_true_iff [->%Ascii.eqb_eq | Hin]%orb_true_iff; auto.
Qed.

(** ** [os.path.splitext] *)

Lemma splitext_append p : fst (splitext p) +:+ snd (splitext p) = p.
Proof.
  unfold splitext.
  destruct (Py.rpartition "/" p) as [[d b]|] eqn:Ed.
  - apply rpartition_Some in Ed as [-> _].
    destruct (Py.rpartition "." b) as [[stem e]|] eqn:Ee;
      [|by rewrite append_nil_r].
    apply rpartition_Some in Ee as [-> _].
    destruct (Py.forallb _ stem); simpl; [by rewrite append_nil_r|].
    by rewrite !append_assoc.
  - destruct (Py.rpartition "." p) as [[stem e]|] eqn:Ee;
      [|by rewrite append_nil_r].
    apply rpartition_Some in Ee as [-> _].
    destruct (Py.forallb _ stem); simpl; [by rewrite append_nil_r|done].
Qed.

(** The extension is empty, or a dot followed by characters that are
    neither dots nor slashes. *)
Lemma splitext_ext p :
  snd (splitext p) = ""
  \/ exists e, snd (splitext p) = String "." e
       /\ Py.forallb (is_not ".") e = true
       /\ Py.forallb (is_not "/") e = true.
Proof.
  unfold splitext.
  destruct (Py.rpartition "/" p) as [[d b]|] eqn:Ed.
  - apply rpartition_Some in Ed as [_ Hb].
    destruct (Py.rpartition "." b) as [[stem e]|] eqn:Ee; [|by left].
    apply rpartition_Some in Ee as [-> He].
    destruct (Py.forallb _ stem); [by left|]. right. exists e.
    rewrite forallb_append in Hb. apply andb_true_iff in Hb as [_ Hb].
    simpl in Hb. auto.
  - apply rpartition_None in Ed.
    destruct (Py.rpartition "." p) as [[stem e]|] eqn:Ee; [|by left].
    apply rpartition_Some in Ee as [-> He].
    destruct (Py.forallb _ stem); [by left|]. right. exists e.
    rewrite forallb_append in Ed. apply andb_true_iff in Ed as [_ Hb].
    simpl in Hb. auto.
Qed.

Lemma splitext_forallb q p :
  Py.forallb q p = true ->
  Py.forallb q (fst (splitext p)) = true
  /\ Py.forallb q (snd (splitext p)) = true.
Proof.
  intros H. rewrite <- (splitext_append p), forallb_append in H.
  by apply andb_true_iff in H.
Qed.

(** Without a slash, the extension is read off the last dot. *)
Lemma splitext_no_slash p :
  Py.forallb (is_not "/") p = true ->
  snd (splitext p)
  = match Py.rpartition "." p with
    | Some (stem, e) =>
        if Py.forallb (Ascii.eqb ".") stem then "" else String "." e
    | None => ""
    end.
Proof.
  intros H%rpartition_None. unfold splitext. rewrite H.
  destruct (Py.rpartition "." p) as [[stem e]|]; [|done].
  by destruct (Py.forallb _ stem).
Qed.

(** ** [sanitize_filename] *)

Lemma forallb_all q s : (forall a, q a = true) -> Py.forallb q s = true.
Proof. intros H. induction s as [|a s IH]; simpl; [done|]. by rewrite H. Qed.

Lemma replaced_is_valid a :
  is_invalid_char (if is_invalid_char a then "_"%char else a) = false.
Proof. by destruct (is_invalid_char a) eqn:E. Qed.

Lemma clean_not_slash : forall a, is_clean_char a = true -> is_not "/" a = true.
Proof. UrllibFacts.ascii_cases. Qed.

Lemma clean_not_control a :
  is_clean_char a = true -> negb (is_control_char a) = true.
Proof. unfold is_clean_char. by intros [_ ?]%andb_true_iff. Qed.

Lemma clean_not_invalid a :
  is_clean_char a = true -> is_invalid_char a = false.
Proof. unfold is_clean_char. by intros [?%negb_true_iff _]%andb_true_iff. Qed.

Lemma cleaned_clean filename :
  Py.forallb is_clean_char (cleaned filename) = true.
Proof.
  unfold cleaned, is_clean_char. rewrite forallb_and. apply andb_true_iff.
  split; [|apply forallb_filter_self].
  apply forallb_filter. rewrite forallb_map. apply forallb_all.
  intros a. by rewrite replaced_is_valid.
Qed.

Lemma cleaned_append s1 s2 : cleaned (s1 +:+ s2) = cleaned s1 +:+ cleaned s2.
Proof. unfold cleaned. by rewrite map_append, filter_append. Qed.

Lemma cleaned_dot e : cleaned (String "." e) = String "." (cleaned e).
Proof. reflexivity. Qed.

Lemma cleaned_no_dot e :
  Py.forallb (is_not ".") e = true ->
  Py.forallb (is_not ".") (cleaned e) = true.
Proof.
  intros H. unfold cleaned. apply forallb_filter. rewrite forallb_map.
  eapply forallb_impl; [|exact H]. intros a Ha. simpl.
  by destruct (is_invalid_char a).
Qed.

Lemma length_cleaned e : String.length (cleaned e) <= String.length e.
Proof.
  unfold cleaned. etrans; [apply length_filter|]. by rewrite length_map.
Qed.

Lemma cleaned_id filename :
  Py.forallb is_clean_char filename = true -> cleaned filename = filename.
Proof.
  intros H. unfold cleaned.
  rewrite (map_id _ is_clean_char).
  - apply filter_id. eapply forallb_impl; [|exact H]. apply clean_not_control.
  - intros a Ha. by rewrite (clean_not_invalid _ Ha).
  - done.
Qed.

(** [sanitize_filename] in terms of the cleaned name. *)
Lemma sanitize_filename_eq filename :
  sanitize_filename filename
  = let c := cleaned filename in
    let t :=
      if (255 <? String.length c)%nat
      then Py.slice_to (255 - Z.of_nat (String.length (snd (splitext c))))
             (fst (splitext c)) +:+ snd (splitext c)
      else c in
    if Py.nonempty t then t else "index.html".
Proof.
  unfold sanitize_filename. fold (cleaned filename). cbv zeta.
  destruct (255 <? _)%nat; [|done]. by destruct (splitext _).
Qed.

Lemma sanitize_clean filename :
  Py.nonempty (sanitize_filename filename) = true
  /\ Py.forallb is_clean_char (sanitize_filename filename) = true.
Proof.
  rewrite sanitize_filename_eq. cbv zeta.
  pose proof (cleaned_clean filename) as Hc.
  set (c := cleaned filename) in *.
  set (t := if (255 <? String.length c)%nat then _ else c).
  assert (Ht : Py.forallb is_clean_char t = true).
  { unfold t. destruct (255 <? _)%nat; [|done].
    destruct (splitext_forallb _ _ Hc) as [Hn He].
    rewrite forallb_append, He, andb_true_r. by apply forallb_slice_to. }
  destruct (Py.nonempty t) eqn:E; [done|]. split; reflexivity.
Qed.


(** X17.  The name [sanitize_filename] returns is never empty and holds none of
    the characters the two substitutions are after: none of the nine
    characters of the first class (so no slash: the name is one path
    component) and no control character. *)
Theorem sanitize_filename_is_clean filename c :
  sanitize_filename filename <> ""
  /\ (Py.char_in c (sanitize_filename filename) = true ->
      is_invalid_char c = false /\ is_control_char c = false).
Proof.
  destruct (sanitize_clean filename) as [Hne Hc]. split.
  - intros E. by rewrite E in Hne.
  - intros Hin. pose proof (forallb_char_in _ _ _ Hc Hin) as H.
    unfold is_clean_char in H.
    apply andb_true_iff in H as [H1%negb_true_iff H2%negb_true_iff]. done.
Qed.

Lemma nonempty_length s : Py.nonempty s = true <-> String.length s <> 0.
Proof. by destruct s. Qed.

Lemma sanitize_length_iff filename :
  String.length (sanitize_filename filename) <= 255
  <-> String.length (snd (splitext (cleaned filename))) <= 255.
Proof.
  rewrite sanitize_filename_eq. cbv zeta.
  set (c := cleaned filename).
  pose proof (splitext_append c) as Hsplit.
  apply (f_equal String.length) in Hsplit. rewrite length_append in Hsplit.
  set (name := fst (splitext c)) in *. set (ext := snd (splitext c)) in *.
  destruct (255 <? String.length c)%nat eqn:Hlong.
  - apply Nat.ltb_lt in Hlong.
    set (t := Py.slice_to _ name +:+ ext).
    assert (Ht : String.length t
                 = String.length (Py.slice_to
                     (255 - Z.of_nat (String.length ext)) name)
                   + String.length ext)
      by (unfold t; by rewrite length_append).
    unfold Py.slice_to in Ht.
    destruct (0 <=? 255 - Z.of_nat (String.length ext))%Z eqn:E;
      rewrite length_take in Ht;
      [apply Z.leb_le in E | apply Z.leb_gt in E].
    + assert (Hne : Py.nonempty t = true) by (apply nonempty_length; lia).
      rewrite Hne. lia.
    + assert (Hne : Py.nonempty t = true) by (apply nonempty_length; lia).
      rewrite Hne. lia.
  - apply Nat.ltb_ge in Hlong.
    destruct (Py.nonempty c); simpl; lia.
Qed.

Lemma rpartition_cleaned filename :
  Py.rpartition "." (cleaned filename)
  = match Py.rpartition "." filename with
    | Some (stem, e) => Some (cleaned stem, cleaned e)
    | None => None
    end.
Proof.
  destruct (Py.rpartition "." filename) as [[stem e]|] eqn:E.
  - apply rpartition_Some in E as [-> He].
    rewrite cleaned_append, cleaned_dot.
    by apply rpartition_append, cleaned_no_dot.
  - apply rpartition_None in E. by apply rpartition_None, cleaned_no_dot.
Qed.

(** X18.  The limit of 255 characters holds exactly when the extension of the
    cleaned name is itself at most 255 characters long: the name is cut to
    make room for the whole extension, which is never shortened.  In
    particular it holds whenever fewer than 255 characters follow the last
    dot of the name, or the name has no dot. *)
Theorem sanitize_filename_length_limit filename :
  (String.length (sanitize_filename filename) <= 255
   <-> String.length (snd (splitext (cleaned filename))) <= 255)
  /\ ((forall stem e, Py.rpartition "." filename = Some (stem, e) ->
         String.length e < 255) ->
      String.length (sanitize_filename filename) <= 255).
Proof.
  split; [apply sanitize_length_iff|]. intros Hdot.
  apply sanitize_length_iff.
  rewrite splitext_no_slash; cycle 1.
  { eapply forallb_impl; [|apply cleaned_clean]. apply clean_not_slash. }
  rewrite rpartition_cleaned.
  destruct (Py.rpartition "." filename) as [[stem e]|]; [|simpl; lia].
  specialize (Hdot stem e eq_refl). pose proof (length_cleaned e).
  destruct (Py.forallb _ _); simpl; lia.
Qed.

Lemma sanitize_fixed filename :
  filename <> "" ->
  Py.forallb is_clean_char filename = true ->
  String.length filename <= 255 ->
  sanitize_filename filename = filename.
Proof.
  intros Hne Hc Hlen. rewrite sanitize_filename_eq. cbv zeta.
  rewrite (cleaned_id _ Hc).
  apply Nat.ltb_ge in Hlen. rewrite Hlen. by destruct filename.
Qed.

(** X19.  A name that is not empty, has at most 255 characters and none that the
    substitutions touch is returned as it is; so sanitising a sanitised
    name changes nothing, as long as the first result is within the
    limit. *)
Theorem sanitize_filename_keeps_clean_names filename :
  (filename <> "" ->
   Py.forallb is_clean_char filename = true ->
   String.length filename <= 255 ->
   sanitize_filename filename = filename)
  /\ (String.length (sanitize_filename filename) <= 255 ->
      sanitize_filename (sanitize_filename filename)
      = sanitize_filename filename).
Proof.
  split; [apply sanitize_fixed|]. intros Hlen.
  destruct (sanitize_clean filename) as [Hne Hc].
  apply sanitize_fixed; [|done..]. intros E. by rewrite E in Hne.
Qed.

(** ** [get_file_extension] *)

Lemma hd_split c s : hd EmptyString (Py.split c s) = fst (Py.cut c s).
Proof.
  unfold Py.cut. induction s as [|a s IH]; simpl; [done|].
  destruct (Ascii.eqb a c); [done|].
  destruct (Py.split c s) as [|h t]; simpl in *;
    destruct (Py.partition c s) as [[h' t']|]; simpl in *; by subst.
Qed.

Lemma get_file_extension_eq url :
  get_file_extension url
  = Py.lower (snd (splitext (fst (Py.cut "#" (fst (Py.cut "?" url)))))).
Proof. unfold get_file_extension. by rewrite !hd_split. Qed.

Lemma lower_lower_char : forall a,
  Py.lower_char (Py.lower_char a) = Py.lower_char a.
Proof. UrllibFacts.ascii_cases. Qed.

Lemma lower_not_dot : forall a,
  is_not "." a = true -> is_not "." (Py.lower_char a) = true.
Proof. UrllibFacts.ascii_cases. Qed.

Lemma lower_not_slash : forall a,
  is_not "/" a = true -> is_not "/" (Py.lower_char a) = true.
Proof. UrllibFacts.ascii_cases. Qed.

Lemma lower_not_question : forall a,
  is_not "?" a = true -> is_not "?" (Py.lower_char a) = true.
Proof. UrllibFacts.ascii_cases. Qed.

Lemma lower_not_hash : forall a,
  is_not "#" a = true -> is_not "#" (Py.lower_char a) = true.
Proof. UrllibFacts.ascii_cases. Qed.

Lemma lower_not_upper : forall a, Py.is_upper (Py.lower_char a) = false.
Proof. UrllibFacts.ascii_cases. Qed.

Lemma py_lower_lower s : Py.lower (Py.lower s) = Py.lower s.
Proof.
  unfold Py.lower. induction s as [|a s IH]; simpl; [done|].
  by rewrite lower_lower_char, IH.
Qed.

Lemma lower_append s1 s2 :
  Py.lower (s1 +:+ s2) = Py.lower s1 +:+ Py.lower s2.
Proof. apply map_append. Qed.

Lemma forallb_lower q s :
  (forall a, q a = true -> q (Py.lower_char a) = true) ->
  Py.forallb q s = true -> Py.forallb q (Py.lower s) = true.
Proof.
  intros Hq H. unfold Py.lower. rewrite forallb_map.
  eapply forallb_impl; [|exact H]. apply Hq.
Qed.

(** The part of the URL the extension is read from: what precedes the
    first question mark and the first hash. *)
Lemma path_part_add_query url q :
  Py.char_in "?" url = false ->
  fst (Py.cut "?" (url +:+ String "?" q)) = url
  /\ fst (Py.cut "?" url) = url.
Proof.
  intros H%char_in_false. by rewrite (cut_append _ _ _ H), (cut_none _ _ H).
Qed.

Lemma path_part_add_fragment url f :
  Py.char_in "#" url = false ->
  fst (Py.cut "#" (fst (Py.cut "?" (url +:+ String "#" f))))
  = fst (Py.cut "#" (fst (Py.cut "?" url))).
Proof.
  intros H%char_in_false. unfold Py.cut at 2 4.
  destruct (Py.partition "?" url) as [[h t]|] eqn:E.
  { by rewrite (partition_append_l _ _ _ _ _ E). }
  rewrite (partition_append_None _ _ _ E). simpl.
  rewrite (cut_none _ _ H). simpl.
  destruct (Py.partition "?" f) as [[h' t']|]; simpl.
  - change (url +:+ String "#" h') with (url +:+ String "#" h').
    by rewrite (cut_append _ _ _ H).
  - by rewrite (cut_append _ _ _ H).
Qed.

(** X20.  A query or a fragment added to a URL that has none does not change the
    extension [get_file_extension] finds. *)
Theorem get_file_extension_ignores_query_and_fragment url :
  (forall q, Py.char_in "?" url = false ->
     get_file_extension (url +:+ String "?" q) = get_file_extension url)
  /\ (forall f, Py.char_in "#" url = false ->
        get_file_extension (url +:+ String "#" f) = get_file_extension url).
Proof.
  split.
  - intros q H. rewrite !get_file_extension_eq.
    destruct (path_part_add_query url q H) as [-> ->]. done.
  - intros f H. rewrite !get_file_extension_eq.
    by rewrite path_part_add_fragment.
Qed.

(** X21.  What [get_file_extension] returns is empty, or a dot followed by
    characters other than dots; it contains no slash, question mark or
    hash, and no capital letter: it is its own lower case. *)
Theorem get_file_extension_shape url :
  let ext := get_file_extension url in
  (ext = "" \/ exists e, ext = String "." e /\ Py.char_in "." e = false)
  /\ Py.char_in "/" ext = false
  /\ Py.char_in "?" ext = false
  /\ Py.char_in "#" ext = false
  /\ Py.forallb (fun a => negb (Py.is_upper a)) ext = true
  /\ Py.lower ext = ext.
Proof.
  intros ext. subst ext. rewrite get_file_extension_eq.
  set (p := fst (Py.cut "#" (fst (Py.cut "?" url)))).
  assert (Hq : Py.forallb (is_not "?") p = true).
  { unfold p. destruct (cut_pieces "#" (fst (Py.cut "?" url))) as [_ Hc].
    destruct (cut_pieces "?" url) as [Hfree _].
    destruct Hc as [-> | Heq]; [done|].
    rewrite Heq, forallb_append in Hfree.
    by apply andb_true_iff in Hfree as [? _]. }
  assert (Hh : Py.forallb (is_not "#") p = true).
  { unfold p. by destruct (cut_pieces "#" (fst (Py.cut "?" url))). }
  destruct (splitext_forallb _ _ Hq) as [_ Hq'].
  destruct (splitext_forallb _ _ Hh) as [_ Hh'].
  set (x := snd (splitext p)) in *.
  assert (Hshape : x = ""
            \/ exists e, x = String "." e
                 /\ Py.forallb (is_not ".") e = true
                 /\ Py.forallb (is_not "/") e = true)
    by apply splitext_ext.
  split.
  { destruct Hshape as [-> | (e & -> & Hd & _)]; [by left|]. right.
    exists (Py.lower e). split; [done|].
    apply char_in_false, forallb_lower; [apply lower_not_dot | done]. }
  split.
  { apply char_in_false, forallb_lower; [apply lower_not_slash|].
    destruct Hshape as [-> | (e & -> & _ & Hs)]; done. }
  split; [apply char_in_false, forallb_lower; [apply lower_not_question|done]|].
  split; [apply char_in_false, forallb_lower; [apply lower_not_hash|done]|].
  split; [|apply py_lower_lower].
  unfold Py.lower. rewrite forallb_map. apply forallb_all.
  intros a. by rewrite lower_not_upper.
Qed.

(** ** [is_documentation_url] *)

Lemma prefix_iff pat s :
  String.prefix pat s = true <-> exists y, s = pat +:+ y.
Proof.
  revert s. induction pat as [|a pat IH]; intros s.
  { split; [intros _; by exists s | by destruct s]. }
  destruct s as [|b s].
  { split; [done|]. intros [y Hy]. by rewrite append_cons in Hy. }
  rewrite UrllibFacts.prefix_cons.
  destruct (ascii_dec a b) as [<-|Hne].
  - rewrite IH. split; intros [y Hy]; exists y.
    + by rewrite append_cons, Hy.
    + rewrite append_cons in Hy. by injection Hy.
  - split; [done|]. intros [y Hy]. rewrite append_cons in Hy.
    injection Hy as ? _. congruence.
Qed.

Lemma contains_iff pat s :
  Py.contains pat s = true <-> exists x y, s = x +:+ pat +:+ y.
Proof.
  induction s as [|b s IH].
  - change (Py.contains pat "") with (String.prefix pat "" || false).
    rewrite orb_false_r, prefix_iff. split.
    + intros [y Hy]. by exists "", y.
    + intros (x & y & Hxy). destruct x; [by exists y|].
      by rewrite append_cons in Hxy.
  - change (Py.contains pat (String b s))
      with (String.prefix pat (String b s) || Py.contains pat s).
    rewrite orb_true_iff, prefix_iff, IH. split.
    + intros [[y Hy] | (x & y & Hxy)]; [by exists "", y|].
      exists (String b x), y. by rewrite append_cons, Hxy.
    + intros (x & y & Hxy). destruct x as [|a x].
      * left. by exists y.
      * right. rewrite append_cons in Hxy. injection Hxy as _ ->.
        by exists x, y.
Qed.

Lemma contains_context pat a s b :
  Py.contains pat s = true -> Py.contains pat (a +:+ s +:+ b) = true.
Proof.
  rewrite !contains_iff. intros (x & y & ->).
  exists (a +:+ x), (y +:+ b). by rewrite !append_assoc.
Qed.

(** X22.  [is_documentation_url] does not look at the case of the letters, and a
    URL that passes still passes with any text put before and after it. *)
Theorem is_documentation_url_ignores_case_and_context url :
  is_documentation_url (Py.lower url) = is_documentation_url url
  /\ (forall before after,
        is_documentation_url url = true ->
        is_documentation_url (before +:+ url +:+ after) = true).
Proof.
  unfold is_documentation_url. split; [by rewrite py_lower_lower|].
  intros before after. rewrite !existsb_exists.
  intros (indicator & Hin & Hc). exists indicator. split; [done|].
  rewrite !lower_append. by apply contains_context.
Qed.

(** ** [format_bytes] *)

Lemma round_half_even_whole m den :
  (0 < den)%Z -> round_half_even (m * den) den = m.
Proof.
  intros Hden. unfold round_half_even.
  rewrite Z.div_mul, Z.mod_mul by lia.
  assert (H : (2 * 0 <? den)%Z = true) by (apply Z.ltb_lt; lia).
  by rewrite H.
Qed.

Lemma format_1f_whole m den :
  (0 < den)%Z -> format_1f (m * den) den = pretty m +:+ ".0".
Proof.
  intros Hden. unfold format_1f.
  replace (10 * (m * den))%Z with ((m * 10) * den)%Z by lia.
  rewrite (round_half_even_whole _ _ Hden).
  by rewrite Z.div_mul, Z.mod_mul by lia.
Qed.

Lemma round_half_even_up num den q :
  (0 < den)%Z ->
  (2 * q * den + den <= 2 * num)%Z -> (num < (q + 1) * den)%Z ->
  Z.even q = false ->
  round_half_even num den = (q + 1)%Z.
Proof.
  intros Hden Hlo Hhi Hodd. unfold round_half_even.
  pose proof (Z.div_mod num den ltac:(lia)) as Hdm.
  pose proof (Z.mod_pos_bound num den Hden) as Hr.
  assert (Hq : (num / den = q)%Z) by nia.
  rewrite Hq in *.
  destruct (2 * (num mod den) <? den)%Z eqn:E1; [apply Z.ltb_lt in E1; lia|].
  destruct (den <? 2 * (num mod den))%Z; [done|]. by rewrite Hodd.
Qed.

(** X23.  A whole number of units is shown as it is, with [.0]: the bytes below
    1024, and the multiples of 1024, of its square and of its cube by a
    number from 1 to 1023; from the fourth power of 1024 on the unit stays
    [TB], whatever the number (the count being below 2^53, where the float
    holds it exactly). *)
Theorem format_bytes_of_whole_units m :
  ((0 <= m < 1024)%Z -> format_bytes m = pretty m +:+ ".0 B")
  /\ ((1 <= m < 1024)%Z ->
      format_bytes (m * 1024) = pretty m +:+ ".0 KB"
      /\ format_bytes (m * 1024 ^ 2) = pretty m +:+ ".0 MB"
      /\ format_bytes (m * 1024 ^ 3) = pretty m +:+ ".0 GB")
  /\ ((1 <= m)%Z -> (m * 1024 ^ 4 < 2 ^ 53)%Z ->
      format_bytes (m * 1024 ^ 4) = pretty m +:+ ".0 TB").
Proof.
  assert (Hlt : forall a b : Z, (a < b)%Z -> (a <? b)%Z = true)
    by (intros; by apply Z.ltb_lt).
  assert (Hge : forall a b : Z, (b <= a)%Z -> (a <? b)%Z = false)
    by (intros; by apply Z.ltb_ge).
  unfold format_bytes. split; [|split].
  - intros Hm. simpl. rewrite Hlt by lia.
    rewrite <- (Z.mul_1_r m) at 1. rewrite format_1f_whole by lia.
    by rewrite !append_assoc.
  - intros Hm. split; [|split]; simpl.
    + rewrite Hge, Hlt by lia.
      change (1024 * 1)%Z with 1024%Z. rewrite format_1f_whole by lia.
      by rewrite !append_assoc.
    + rewrite !Hge by lia. rewrite Hlt by lia.
      change (1024 * (1024 * 1))%Z with (1024 ^ 2)%Z.
      rewrite format_1f_whole by lia. by rewrite !append_assoc.
    + rewrite !Hge by lia. rewrite Hlt by lia.
      change (1024 * (1024 * (1024 * 1)))%Z with (1024 ^ 3)%Z.
      rewrite format_1f_whole by lia. by rewrite !append_assoc.
  - intros Hm _. simpl. rewrite !Hge by lia.
    change (1024 * (1024 * (1024 * (1024 * 1))))%Z with (1024 ^ 4)%Z.
    rewrite format_1f_whole by lia. by rewrite !append_assoc.
Qed.

(** X24.  Just below the next unit the number shown is 1024.0: the value is
    compared with 1024 before it is rounded, so a count less than a
    twentieth of a unit below 1024 units is shown as [1024.0] of the unit
    and not as [1.0] of the next one. *)
Theorem format_bytes_shows_1024_below_the_next_unit n :
  ((20 * 1024 ^ 2 - 1024 <= 20 * n)%Z -> (n < 1024 ^ 2)%Z ->
   format_bytes n = "1024.0 KB")
  /\ ((20 * 1024 ^ 3 - 1024 ^ 2 <= 20 * n)%Z -> (n < 1024 ^ 3)%Z ->
      format_bytes n = "1024.0 MB")
  /\ ((20 * 1024 ^ 4 - 1024 ^ 3 <= 20 * n)%Z -> (n < 1024 ^ 4)%Z ->
      format_bytes n = "1024.0 GB").
Proof.
  assert (Hlt : forall a b : Z, (a < b)%Z -> (a <? b)%Z = true)
    by (intros; by apply Z.ltb_lt).
  assert (Hge : forall a b : Z, (b <= a)%Z -> (a <? b)%Z = false)
    by (intros; by apply Z.ltb_ge).
  unfold format_bytes. split; [|split]; intros Hlo Hhi; simpl.
  - rewrite Hge, Hlt by lia. unfold format_1f.
    rewrite (round_half_even_up _ _ 10239) by (done || lia). done.
  - rewrite !Hge by lia. rewrite Hlt by lia. unfold format_1f.
    rewrite (round_half_even_up _ _ 10239) by (done || lia). done.
  - rewrite !Hge by lia. rewrite Hlt by lia. unfold format_1f.
    rewrite (round_half_even_up _ _ 10239) by (done || lia). done.
Qed.

End UtilsFacts.

(** * Path names *)

Module PathFacts.
Import OsPath Config Utils Crawler PyFacts.
Import Py (is_not).















End PathFacts.

(** * More of the crawl loop: what a run keeps, counts and reaches *)

Module LoopFacts.
Import Urllib UrllibJoin Config Utils Crawler CrawlerFacts.

Lemma path_exists_false f p :
  path_exists f p = false -> files f !! p = None /\ p ∉ dirs f.
Proof.
  unfold path_exists. intros H%bool_decide_eq_false.
  split.
  - apply not_elem_of_dom. intros Hin. apply H. by apply elem_of_union_l.
  - intros Hin. apply H. by apply elem_of_union_r.
Qed.

Section World.

Variable check_bracketed_host : string -> bool.
Variable cwd : string.
Variable session_get : nat -> string -> Response.
Variable find_hrefs : string -> list string.
Variable iter_order : list string -> list string.
Variable mkdir_refused : nat -> string -> bool.
Variable open_write : nat -> string -> string -> WriteOutcome.

Local Abbreviation download_page := (download_page session_get).
Local Abbreviation save_page :=
  (save_page check_bracketed_host cwd mkdir_refused open_write).
Local Abbreviation extract_links_from_page :=
  (extract_links_from_page check_bracketed_host find_hrefs).
Local Abbreviation unvisited := (unvisited iter_order).
Local Abbreviation loop_body :=
  (loop_body check_bracketed_host cwd session_get find_hrefs iter_order
     mkdir_refused open_write).
Local Abbreviation run :=
  (run check_bracketed_host cwd session_get find_hrefs iter_order
     mkdir_refused open_write).

(** Everything [save_page] can do to the state: raise having at most made
    directories, record a failed write, or write the content to a path
    that did not exist. *)
Lemma save_page_effect url content st :
  let res := save_page url content st in
  let st' := res_state res in
  visited_urls st' = visited_urls st
  /\ failed_urls st' = failed_urls st
  /\ files (fs st) ⊆ files (fs st')
  /\ dirs (fs st) ⊆ dirs (fs st')
  /\ ((res = Exn st'
       /\ files (fs st') = files (fs st)
       /\ downloaded_files st' = downloaded_files st
       /\ trace st' = trace st)
      \/ (exists p o,
            res = Ret "" st'
            /\ downloaded_files st' = downloaded_files st
            /\ trace st' = Save url p (WriteFails o) :: trace st)
      \/ (exists p,
            res = Ret p st'
            /\ files (fs st) !! p = None
            /\ downloaded_files st' = <[url := p]> (downloaded_files st)
            /\ files (fs st') = <[p := content]> (files (fs st))
            /\ trace st' = Save url p Written :: trace st)).
Proof.
  unfold Crawler.save_page.
  destruct (save_target _ _ _) as [[dir_path filename]|];
    [|simpl; repeat split; auto].
  unfold ensure_directory.
  destruct (mkdir_refused _ _); [simpl; repeat split; auto|].
  destruct (existsb _ _); [simpl; repeat split; auto|].
  set (f := mkFS _ _).
  set (original_path := OsPath.join dir_path [sanitize_filename filename]).
  destruct (free_path_first_free f original_path) as (k & -> & Hfree & _).
  apply path_exists_false in Hfree as [Hfree _]. simpl in Hfree.
  set (p := attempt original_path k) in *.
  assert (Hd : dirs (fs st) ⊆ dirs f) by apply union_subseteq_r.
  destruct (open_write _ _ _) as [|[part|]]; simpl.
  - split; [done|]. split; [done|].
    split; [by apply insert_subseteq|]. split; [done|].
    right; right. exists p. auto.
  - split; [done|]. split; [done|].
    split; [by apply insert_subseteq|]. split; [done|].
    right; left. exists p, (Some part). auto.
  - split; [done|]. split; [done|]. split; [done|]. split; [done|].
    right; left. exists p, None. auto.
Qed.

(** One turn of the loop on a URL that is not visited yet. *)
Lemma loop_body_turn l url rest :
  urls_to_process l = url :: rest ->
  url ∉ visited_urls (self l) ->
  let r := session_get (length (trace (self l))) url in
  exists st1,
    visited_urls st1 = {[url]} ∪ visited_urls (self l)
    /\ downloaded_files st1 = downloaded_files (self l)
    /\ fs st1 = fs (self l)
    /\ trace st1 = Download url r :: trace (self l)
    /\ failed_urls st1 =
         match r with
         | Raises => {[url]} ∪ failed_urls (self l)
         | _ => failed_urls (self l)
         end
    /\ ((has_content r = false
         /\ loop_body l = Running (mkLoop st1 rest (processed_count l)))
        \/ (exists content_length text,
              r = Responds content_length text
              /\ has_content r = true
              /\ loop_body l =
                   match save_page url text st1 with
                   | Exn st2 => Raised (mkLoop st2 rest (processed_count l))
                   | Ret _ st2 =>
                       match extract_links_from_page text url with
                       | None => Raised (mkLoop st2 rest (processed_count l))
                       | Some links =>
                           Running (mkLoop st2 (rest ++ unvisited st2 links)
                                      (S (processed_count l)))
                       end
                   end)).
Proof.
  intros Hq Hvis r. unfold Crawler.loop_body.
  rewrite Hq, bool_decide_eq_false_2 by done.
  destruct (download_page_spec session_get url (mark_visited url (self l)))
    as (st1 & Hdl & Hv1 & Hd1 & Hfs1 & Ht1 & Hf1).
  simpl in Hdl, Hv1, Hd1, Hfs1, Ht1, Hf1. rewrite Hdl. fold r in Ht1, Hf1.
  fold r. exists st1. do 5 (split; [assumption|]).
  destruct r as [|len text]; [by left|].
  unfold content_of, has_content.
  destruct (MAX_FILE_SIZE <? len)%N eqn:Hbig.
  { left. by destruct text. }
  destruct text as [|a text]; [by left|].
  right. by exists len, (String a text).
Qed.

(** The two other turns: an empty queue, and a URL already visited. *)
Lemma loop_body_other l :
  (urls_to_process l = [] /\ loop_body l = Finished l)
  \/ (exists url rest,
        urls_to_process l = url :: rest
        /\ url ∈ visited_urls (self l)
        /\ loop_body l = Running (mkLoop (self l) rest (processed_count l)))
  \/ (exists url rest,
        urls_to_process l = url :: rest /\ url ∉ visited_urls (self l)).
Proof.
  unfold Crawler.loop_body.
  destruct (urls_to_process l) as [|url rest]; [by left|]. right.
  destruct (decide (url ∈ visited_urls (self l))) as [Hin|Hin].
  - left. exists url, rest. by rewrite bool_decide_eq_true_2.
  - right. by exists url, rest.
Qed.



(** The same between two states: a relation that every turn extends. *)
Lemma run_extends (R : State -> State -> Prop) :
  (forall st, R st st) ->
  (forall st1 st2 st3, R st1 st2 -> R st2 st3 -> R st1 st3) ->
  (forall l, R (self l) (self (loop_of (loop_body l)))) ->
  forall n l, R (self l) (self (loop_of (run n l))).
Proof.
  intros Hrefl Htrans Hstep. induction n as [|n IH]; intros l; simpl; [done|].
  specialize (Hstep l).
  destruct (loop_body l) as [l'|l'|l']; simpl in *; eauto.
Qed.

(** ** The file system along a run *)



(** ** What [downloaded_files] says of the file system *)






(** ** The counters *)

Lemma CountInv_start f frontier : CountInv (start (fresh f) frontier).
Proof.
  constructor; simpl.
  - intros url Hin. by apply not_elem_of_empty in Hin.
  - intros url. split; intros Hin.
    + by apply not_elem_of_empty in Hin.
    + by apply not_elem_of_nil in Hin.
  - by rewrite map_size_empty.
  - done.
Qed.

Lemma size_add_new (X : gset string) url :
  url ∉ X -> size ({[url]} ∪ X) = S (size X).
Proof.
  intros Hnew. rewrite size_union, size_singleton; [done|].
  intros u ->%elem_of_singleton. done.
Qed.

Lemma size_insert_le (m : gmap string string) url p :
  size (<[url := p]> m) <= S (size m).
Proof.
  destruct (m !! url) as [q|] eqn:E.
  - rewrite map_size_insert_Some by eauto. lia.
  - by rewrite map_size_insert_None.
Qed.

Lemma loop_body_count_inv l :
  LoopInv l -> CountInv l ->
  match loop_body l with
  | Raised _ => True
  | Running l' | Finished l' => CountInv l'
  end.
Proof.
  intros [Hst _] Hc.
  destruct (loop_body_other l)
    as [[_ ->] | [(url & rest & _ & _ & ->) | (url & rest & Hq & Hvis)]].
  { done. }
  { by destruct Hc. }
  destruct Hc as [Hreq Hfail Hsaved Hcount].
  destruct (loop_body_turn l url rest Hq Hvis)
    as (st1 & Hv1 & Hd1 & Hfs1 & Ht1 & Hf1 & Hcases).
  set (r := session_get (length (trace (self l))) url) in *.
  assert (Hnf : url ∉ failed_urls (self l)).
  { intros Hin. by apply Hvis, (inv_failed_visited _ Hst). }
  assert (Hreq1 : forall u, u ∈ visited_urls st1 -> u ∈ downloads (trace st1)).
  { intros u. rewrite Hv1, Ht1, downloads_cons_download.
    intros [->%elem_of_singleton | Hu]%elem_of_union; [by left|].
    right. by apply Hreq. }
  assert (Hfail1 : forall u, u ∈ failed_urls st1
                             <-> Download u Raises ∈ trace st1).
  { intros u. rewrite Hf1, Ht1, elem_of_cons, <- Hfail.
    destruct r; split.
    - intros [->%elem_of_singleton | Hu]%elem_of_union; auto.
    - intros [[= ->] | Hu]; [by apply elem_of_union_l, elem_of_singleton|].
      by apply elem_of_union_r.
    - auto.
    - by intros [? | ?]. }
  assert (Hsv1 : size (visited_urls st1) = S (size (visited_urls (self l)))).
  { rewrite Hv1. by apply size_add_new. }
  assert (Hsf1 : size (failed_urls st1) <= S (size (failed_urls (self l)))
                 /\ (has_content r = true ->
                     failed_urls st1 = failed_urls (self l))).
  { rewrite Hf1. destruct r; [|split; [lia|done]].
    rewrite size_add_new by done. split; [lia|done]. }
  destruct Hcases as [[Hno ->] | (len & text & Hr & Hyes & ->)].
  { constructor; simpl; [done|done|by rewrite Hd1|].
    rewrite Hsv1. destruct Hsf1 as [Hle _]. rewrite Hf1 in *.
    destruct r; [|lia]. rewrite size_add_new in * by done. lia. }
  destruct Hsf1 as [_ Hsame]. specialize (Hsame Hyes).
  pose proof (save_page_effect url text st1) as (Hv2 & Hf2 & _ & _ & Heff).
  destruct (save_page url text st1) as [p st2|st2] eqn:Hs;
    simpl in Hv2, Hf2, Heff; [|done].
  destruct (extract_links_from_page text url) as [links|]; [|done].
  assert (Ht2 : exists q o, trace st2 = Save url q o :: trace st1).
  { destruct Heff as [(? & _) | [(q & o & _ & _ & ?) | (q & _ & _ & _ & _ & ?)]];
      [done|eauto..]. }
  destruct Ht2 as (q & o & Ht2).
  assert (Hd2 : size (downloaded_files st2) <= S (size (downloaded_files st1))).
  { destruct Heff as [(? & _) | [(? & ? & _ & -> & _) | (? & _ & _ & -> & _)]];
      [done|lia|apply size_insert_le]. }
  constructor; simpl.
  - intros u. rewrite Hv2, Ht2, downloads_cons_save. apply Hreq1.
  - intros u. rewrite Hf2, Ht2, elem_of_cons, Hfail1.
    split; [auto | by intros [? | ?]].
  - rewrite Hd1 in Hd2. lia.
  - rewrite Hv2, Hf2, Hsv1, Hsame. lia.
Qed.

Lemma run_count_inv n l :
  LoopInv l -> CountInv l ->
  match run n l with
  | Raised _ => True
  | Running l' | Finished l' => CountInv l'
  end.
Proof.
  revert l. induction n as [|n IH]; intros l Hl Hc; simpl; [done|].
  pose proof (loop_body_inv check_bracketed_host cwd session_get find_hrefs
                iter_order mkdir_refused open_write l Hl) as [_ Hl'].
  pose proof (loop_body_count_inv l Hl Hc) as Hc'.
  destruct (loop_body l) as [l'|l'|l']; [by apply IH|done|done].
Qed.

(** X3.  The numbers of the summary of a finished crawl fit together: no more
    files were saved than pages counted; the pages counted and the failed
    downloads together are at most the visited URLs, which are as many as
    the requests made; and [failed_urls] lists, each once, exactly the URLs
    whose request raised. *)
Theorem summary_counts_are_consistent f frontier n l :
  (forall xs, iter_order xs ≡ₚ xs) ->
  run n (start (fresh f) frontier) = Finished l ->
  let s := summary iter_order l in
  successful_downloads s <= total_pages s
  /\ total_pages s + failed_downloads s <= size (visited_urls (self l))
  /\ size (visited_urls (self l)) = length (downloads (trace (self l)))
  /\ length (summary_failed_urls s) = failed_downloads s
  /\ NoDup (summary_failed_urls s)
  /\ forall url, url ∈ summary_failed_urls s
                 <-> Download url Raises ∈ trace (self l).
Proof.
  intros Hperm Hrun s.
  pose proof (run_inv check_bracketed_host cwd session_get find_hrefs
                iter_order mkdir_refused open_write n _
                (LoopInv_start f frontier)) as [_ Hinv].
  pose proof (run_count_inv n _ (LoopInv_start f frontier)
                (CountInv_start f frontier)) as Hc.
  rewrite Hrun in Hinv, Hc. destruct Hinv as [Hst _].
  destruct Hc as [Hreq Hfail Hsaved Hcount]. simpl.
  split; [done|]. split; [done|]. split.
  { rewrite <- (size_list_to_set (C := gset string))
      by apply (inv_downloads_nodup _ Hst).
    apply set_size_proper. intros u. rewrite elem_of_list_to_set. split.
    - apply Hreq.
    - intros [r Hin]%elem_of_downloads.
      exact (inv_events_visited _ Hst _ Hin). }
  split; [by rewrite Hperm|].
  split; [rewrite Hperm; apply NoDup_elements|].
  intros url. by rewrite Hperm, elem_of_elements.
Qed.

(** ** What the loop reaches *)

Lemma elem_of_unvisited st links link :
  (forall xs, iter_order xs ≡ₚ xs) ->
  link ∈ unvisited st links <-> link ∈ links /\ link ∉ visited_urls st.
Proof.
  intros Hperm. unfold Crawler.unvisited.
  rewrite list_elem_of_In, filter_In, <- list_elem_of_In, Hperm,
    elem_of_elements, bool_decide_eq_true.
  tauto.
Qed.

(** What is in the trace stays there. *)
Lemma loop_body_trace_grows l e :
  e ∈ trace (self l) -> e ∈ trace (self (loop_of (loop_body l))).
Proof.
  intros He.
  destruct (loop_body_other l)
    as [[_ ->] | [(url & rest & _ & _ & ->) | (url & rest & Hq & Hvis)]];
    [done..|].
  destruct (loop_body_turn l url rest Hq Hvis)
    as (st1 & _ & _ & _ & Ht1 & _ & Hcases).
  assert (He1 : e ∈ trace st1) by (rewrite Ht1; by right).
  destruct Hcases as [[_ ->] | (len & text & _ & _ & ->)]; [done|].
  pose proof (save_page_effect url text st1) as (_ & _ & _ & _ & Heff).
  assert (He2 : e ∈ trace (res_state (save_page url text st1))).
  { destruct Heff as [(_ & _ & _ & ->) | [(q & o & _ & _ & ->)
                                         | (q & _ & _ & _ & _ & ->)]];
      [done | by right | by right]. }
  destruct (save_page url text st1) as [p st2|st2]; simpl in *; [|done].
  by destruct (extract_links_from_page text url).
Qed.

(** A URL that is visited or queued stays visited or queued while the loop
    goes on. *)
Lemma loop_body_pending l url :
  pending l url ->
  match loop_body l with
  | Raised _ => True
  | Running l' | Finished l' => pending l' url
  end.
Proof.
  intros Hp.
  destruct (loop_body_other l)
    as [[_ ->] | [(u & rest & Hq & Hin & ->) | (u & rest & Hq & Hvis)]].
  { done. }
  { destruct Hp as [? | Hp]; [by left|]. rewrite Hq in Hp.
    apply elem_of_cons in Hp as [-> | ?]; [by left | by right]. }
  destruct (loop_body_turn l u rest Hq Hvis)
    as (st1 & Hv1 & _ & _ & _ & _ & Hcases).
  assert (Hp1 : url ∈ visited_urls st1 \/ url ∈ rest).
  { rewrite Hv1. destruct Hp as [? | Hp]; [left; by apply elem_of_union_r|].
    rewrite Hq in Hp. apply elem_of_cons in Hp as [-> | ?]; [|by right].
    left. by apply elem_of_union_l, elem_of_singleton. }
  destruct Hcases as [[_ ->] | (len & text & _ & _ & ->)]; [done|].
  pose proof (save_page_effect url text st1) as _.
  pose proof (save_page_effect u text st1) as (Hv2 & _).
  destruct (save_page u text st1) as [p st2|st2]; simpl in *; [|done].
  destruct (extract_links_from_page text u) as [links|]; [|done].
  unfold pending. simpl. rewrite Hv2.
  destruct Hp1 as [? | ?]; [by left|].
  right. by apply elem_of_app; left.
Qed.

(** The links of the pages that had a content are visited or queued. *)
Lemma loop_body_closed l :
  (forall xs, iter_order xs ≡ₚ xs) ->
  (forall url content_length text links link,
     Download url (Responds content_length text) ∈ trace (self l) ->
     has_content (Responds content_length text) = true ->
     extract_links_from_page text url = Some links ->
     link ∈ links -> pending l link) ->
  match loop_body l with
  | Raised _ => True
  | Running l' | Finished l' =>
      forall url content_length text links link,
        Download url (Responds content_length text) ∈ trace (self l') ->
        has_content (Responds content_length text) = true ->
        extract_links_from_page text url = Some links ->
        link ∈ links -> pending l' link
  end.
Proof.
  intros Hperm Hold.
  assert (Hkeep : forall url content_length text links link,
            Download url (Responds content_length text) ∈ trace (self l) ->
            has_content (Responds content_length text) = true ->
            extract_links_from_page text url = Some links ->
            link ∈ links ->
            match loop_body l with
            | Raised _ => True
            | Running l' | Finished l' => pending l' link
            end).
  { intros. apply loop_body_pending. eauto. }
  destruct (loop_body_other l)
    as [[_ Hb] | [(u & rest & Hq & Hin & Hb) | (u & rest & Hq & Hvis)]].
  { rewrite Hb in *. done. }
  { rewrite Hb in *. simpl. done. }
  destruct (loop_body_turn l u rest Hq Hvis)
    as (st1 & Hv1 & _ & _ & Ht1 & _ & Hcases).
  set (r := session_get (length (trace (self l))) u) in *.
  destruct Hcases as [[Hno Hb] | (len & text & Hr & Hyes & Hb)].
  { rewrite Hb in *. intros url len' text' links link Hin Hc.
    simpl in Hin. rewrite Ht1 in Hin.
    apply elem_of_cons in Hin as [Heq | Hin]; [|eauto].
    injection Heq as -> Heq. rewrite Heq in Hc. congruence. }
  pose proof (save_page_effect u text st1) as (Hv2 & _ & _ & _ & Heff).
  destruct (save_page u text st1) as [p st2|st2] eqn:Hs;
    simpl in Hv2, Heff; [|by rewrite Hb].
  destruct (extract_links_from_page text u) as [new_links|] eqn:Hx;
    [|by rewrite Hb].
  rewrite Hb in *.
  assert (Ht2 : exists q o, trace st2 = Save u q o :: trace st1).
  { destruct Heff as [(? & _) | [(q & o & _ & _ & ?) | (q & _ & _ & _ & _ & ?)]];
      [done|eauto..]. }
  destruct Ht2 as (q & o & Ht2).
  intros url len' text' links link Hin Hc Hx' Hlink. simpl in Hin.
  rewrite Ht2, Ht1 in Hin.
  apply elem_of_cons in Hin as [[=] | Hin].
  apply elem_of_cons in Hin as [Heq | Hin]; [|eauto].
  injection Heq as -> Heq. rewrite Hr in Heq. injection Heq as -> ->.
  rewrite Hx in Hx'. injection Hx' as <-.
  destruct (decide (link ∈ visited_urls st2)) as [?|Hnew]; [by left|].
  right. simpl. apply elem_of_app. right. by apply elem_of_unvisited.
Qed.

Lemma run_Finished n l0 l :
  run n l0 = Finished l -> urls_to_process l = [].
Proof.
  revert l0. induction n as [|n IH]; intros l0; simpl; [done|].
  destruct (loop_body_other l0)
    as [[Hq ->] | [(u & rest & _ & _ & ->) | (u & rest & Hq & Hvis)]].
  - by intros [= <-].
  - apply IH.
  - destruct (loop_body l0) as [l'|l'|l'] eqn:E; [apply IH| |done].
    unfold Crawler.loop_body in E. rewrite Hq in E.
    rewrite bool_decide_eq_false_2 in E by done.
    destruct (Crawler.download_page _ _ _) as [[[|a t]|] st1]; try done.
    destruct (Crawler.save_page _ _ _ _ _ _ _) as [p st2|st2]; [|done].
    by destruct (Crawler.extract_links_from_page _ _ _ _).
Qed.

Lemma run_closed n l0 :
  (forall xs, iter_order xs ≡ₚ xs) ->
  forall (Q : string -> Prop),
  (forall url, Q url -> pending l0 url) ->
  (forall url content_length text links link,
     Download url (Responds content_length text) ∈ trace (self l0) ->
     has_content (Responds content_length text) = true ->
     extract_links_from_page text url = Some links ->
     link ∈ links -> pending l0 link) ->
  match run n l0 with
  | Raised _ => True
  | Running l | Finished l =>
      (forall url, Q url -> pending l url)
      /\ forall url content_length text links link,
           Download url (Responds content_length text) ∈ trace (self l) ->
           has_content (Responds content_length text) = true ->
           extract_links_from_page text url = Some links ->
           link ∈ links -> pending l link
  end.
Proof.
  intros Hperm Q. revert l0.
  induction n as [|n IH]; intros l0 HQ Hold; simpl; [done|].
  pose proof (loop_body_closed l0 Hperm Hold) as Hnew.
  assert (HQ' : forall url, Q url ->
            match loop_body l0 with
            | Raised _ => True
            | Running l' | Finished l' => pending l' url
            end).
  { intros url Hurl. apply loop_body_pending. auto. }
  destruct (loop_body l0) as [l'|l'|l']; [by apply IH|done|done].
Qed.

(** X4.  When a crawl finishes, the queue is empty, every URL it started from is
    visited, and so is every link of every page that was fetched with a
    content: the visited set is closed under the links [crawl] follows. *)
Theorem finished_crawl_has_followed_every_link f frontier n l :
  (forall xs, iter_order xs ≡ₚ xs) ->
  run n (start (fresh f) frontier) = Finished l ->
  urls_to_process l = []
  /\ (forall url, url ∈ frontier -> url ∈ visited_urls (self l))
  /\ (forall url content_length text links link,
        Download url (Responds content_length text) ∈ trace (self l) ->
        has_content (Responds content_length text) = true ->
        extract_links_from_page text url = Some links ->
        link ∈ links -> link ∈ visited_urls (self l)).
Proof.
  intros Hperm Hrun.
  pose proof (run_Finished _ _ _ Hrun) as Hq.
  pose proof (run_closed n (start (fresh f) frontier) Hperm
                (fun url => url ∈ frontier)) as H.
  rewrite Hrun in H. destruct H as [Hfront Hlinks].
  { intros url Hin. by right. }
  { intros url len text links link Hin. by apply not_elem_of_nil in Hin. }
  assert (Hdone : forall url, pending l url -> url ∈ visited_urls (self l)).
  { intros url [? | Hin]; [done|]. rewrite Hq in Hin.
    by apply not_elem_of_nil in Hin. }
  split; [done|]. split; [by auto|]. intros. eapply Hdone, Hlinks; eauto.
Qed.

(** ** Where the visited URLs come from *)

Lemma run_keeps_loop (P : Loop -> Prop) :
  (forall l, P l -> P (loop_of (loop_body l))) ->
  forall n l, P l -> P (loop_of (run n l)).
Proof.
  intros Hstep. induction n as [|n IH]; intros l Hl; simpl; [done|].
  specialize (Hstep l Hl).
  destruct (loop_body l) as [l'|l'|l']; simpl in *; auto.
Qed.

Local Abbreviation found_on_a_page :=
  (found_on_a_page check_bracketed_host find_hrefs).

Lemma found_on_a_page_mono t t' url :
  (forall e, e ∈ t -> e ∈ t') ->
  found_on_a_page t url -> found_on_a_page t' url.
Proof.
  intros Hsub (src & len & text & links & Hin & ?).
  exists src, len, text, links. split; [by apply Hsub | done].
Qed.

Lemma loop_body_origin (Q : string -> Prop) l :
  (forall xs, iter_order xs ≡ₚ xs) ->
  (forall url, pending l url ->
     Q url \/ found_on_a_page (trace (self l)) url) ->
  forall url, pending (loop_of (loop_body l)) url ->
    Q url \/ found_on_a_page (trace (self (loop_of (loop_body l)))) url.
Proof.
  intros Hperm Hold.
  assert (Hkeep : forall url, pending l url ->
            Q url
            \/ found_on_a_page (trace (self (loop_of (loop_body l)))) url).
  { intros url [? | Hf]%Hold; [by left|]. right.
    eapply found_on_a_page_mono; [|exact Hf]. apply loop_body_trace_grows. }
  destruct (loop_body_other l)
    as [[_ Hb] | [(u & rest & Hq & Hin & Hb) | (u & rest & Hq & Hvis)]].
  { rewrite Hb in *. done. }
  { rewrite Hb in *. simpl in *. intros url [? | ?]; apply Hkeep.
    - by left.
    - right. rewrite Hq. by right. }
  destruct (loop_body_turn l u rest Hq Hvis)
    as (st1 & Hv1 & _ & _ & Ht1 & _ & Hcases).
  assert (Hold1 : forall url, url ∈ visited_urls st1 \/ url ∈ rest ->
            pending l url).
  { intros url [Hin | Hin].
    - rewrite Hv1 in Hin.
      apply elem_of_union in Hin as [->%elem_of_singleton | ?]; [|by left].
      right. rewrite Hq. by left.
    - right. rewrite Hq. by right. }
  destruct Hcases as [[Hno Hb] | (len & text & Hr & Hyes & Hb)].
  { rewrite Hb in *. intros url Hp. apply Hkeep, Hold1, Hp. }
  pose proof (save_page_effect u text st1) as (Hv2 & _ & _ & _ & Heff).
  destruct (save_page u text st1) as [p st2|st2] eqn:Hs;
    simpl in Hv2, Heff; cycle 1.
  { rewrite Hb in *. intros url Hp. apply Hkeep, Hold1.
    unfold pending in Hp. simpl in Hp. by rewrite Hv2 in Hp. }
  destruct (extract_links_from_page text u) as [new_links|] eqn:Hx; cycle 1.
  { rewrite Hb in *. intros url Hp. apply Hkeep, Hold1.
    unfold pending in Hp. simpl in Hp. by rewrite Hv2 in Hp. }
  rewrite Hb in *. intros url Hp. unfold pending in Hp. simpl in Hp.
  rewrite Hv2 in Hp.
  destruct Hp as [Hp | [Hp | Hp]%elem_of_app];
    [apply Hkeep, Hold1; by left | apply Hkeep, Hold1; by right |].
  apply elem_of_unvisited in Hp as [Hlink _]; [|done].
  right. exists u, len, text, new_links.
  split; [|split; [by rewrite <- Hr | done]]. simpl.
  assert (Ht2 : exists q o, trace st2 = Save u q o :: trace st1).
  { destruct Heff as [(? & _) | [(q & o & _ & _ & ?) | (q & _ & _ & _ & _ & ?)]];
      [done|eauto..]. }
  destruct Ht2 as (q & o & ->). rewrite Ht1, <- Hr. right. by left.
Qed.

(** X5.  Whatever a crawl visits, and so whatever it requests, is one of the
    URLs it started from or a link that [extract_links_from_page] returned
    for a page fetched in the same crawl: such a URL passes [is_valid_url]
    and has no fragment. *)
Theorem visited_urls_are_seeds_or_valid_links f frontier n url :
  (forall xs, iter_order xs ≡ₚ xs) ->
  let st := self (loop_of (run n (start (fresh f) frontier))) in
  url ∈ visited_urls st ->
  url ∈ frontier
  \/ (is_valid_url check_bracketed_host url = Some true
      /\ Py.char_in "#" url = false
      /\ found_on_a_page (trace st) url).
Proof.
  intros Hperm st Hvis.
  assert (H : forall u,
            pending (loop_of (run n (start (fresh f) frontier))) u ->
            u ∈ frontier \/ found_on_a_page (trace st) u).
  { apply (run_keeps_loop
             (fun l => forall u, pending l u ->
                         u ∈ frontier \/ found_on_a_page (trace (self l)) u)).
    - intros l Hl. by apply loop_body_origin.
    - intros u [Hin | Hin]; [by apply not_elem_of_empty in Hin | by left]. }
  destruct (H url) as [? | Hf]; [by left | by left |]. right.
  destruct Hf as (src & len & text & links & Hin & Hc & Hx & Hlink).
  assert (Hv : is_valid_url check_bracketed_host url = Some true
               /\ Py.char_in "#" url = false).
  { pose proof (LinkFacts.collect_links_Some check_bracketed_host
                  src (find_hrefs text) ∅ links Hx url) as Hiff.
    apply Hiff in Hlink as [Hl | (href & _ & Hh)];
      [by apply not_elem_of_empty in Hl|].
    by destruct (LinkFacts.link_of_href_valid _ _ _ _ Hh) as (? & _ & ? & _). }
  destruct Hv. split; [done|]. split; [done|].
  by exists src, len, text, links.
Qed.

(** ** A run only adds *)

Lemma loop_body_grows l :
  let st' := self (loop_of (loop_body l)) in
  visited_urls (self l) ⊆ visited_urls st'
  /\ failed_urls (self l) ⊆ failed_urls st'
  /\ trace (self l) `suffix_of` trace st'.
Proof.
  destruct (loop_body_other l)
    as [[_ ->] | [(url & rest & _ & _ & ->) | (url & rest & Hq & Hvis)]];
    [done..|].
  destruct (loop_body_turn l url rest Hq Hvis)
    as (st1 & Hv1 & _ & _ & Ht1 & Hf1 & Hcases).
  assert (H1 : visited_urls (self l) ⊆ visited_urls st1
               /\ failed_urls (self l) ⊆ failed_urls st1
               /\ trace (self l) `suffix_of` trace st1).
  { rewrite Hv1, Hf1, Ht1. split; [apply union_subseteq_r|]. split.
    - destruct (session_get _ _); [apply union_subseteq_r | done].
    - by apply suffix_cons_r. }
  destruct Hcases as [[_ ->] | (len & text & _ & _ & ->)]; [done|].
  pose proof (save_page_effect url text st1) as (Hv2 & Hf2 & _ & _ & Heff).
  assert (H2 : visited_urls (self l)
                 ⊆ visited_urls (res_state (save_page url text st1))
               /\ failed_urls (self l)
                    ⊆ failed_urls (res_state (save_page url text st1))
               /\ trace (self l)
                    `suffix_of` trace (res_state (save_page url text st1))).
  { simpl in Hv2, Hf2. rewrite Hv2, Hf2.
    destruct H1 as (? & ? & ?). split; [done|]. split; [done|].
    destruct Heff as [(_ & _ & _ & ->) | [(q & o & _ & _ & ->)
                                         | (q & _ & _ & _ & _ & ->)]];
      [done | by apply suffix_cons_r | by apply suffix_cons_r]. }
  destruct (save_page url text st1) as [p st2|st2]; simpl in *; [|done].
  by destruct (extract_links_from_page text url).
Qed.



Lemma run_grows n l :
  let st' := self (loop_of (run n l)) in
  visited_urls (self l) ⊆ visited_urls st'
  /\ failed_urls (self l) ⊆ failed_urls st'
  /\ trace (self l) `suffix_of` trace st'.
Proof.
  apply (run_extends
           (fun st st' => visited_urls st ⊆ visited_urls st'
                          /\ failed_urls st ⊆ failed_urls st'
                          /\ trace st `suffix_of` trace st')).
  - done.
  - intros st1 st2 st3 (? & ? & ?) (? & ? & ?).
    split; [by etrans|]. split; by etrans.
  - apply loop_body_grows.
Qed.



(** ** Requests that raise, and pages with a link that cannot be parsed *)

(** X6.  When the request for the popped URL raises, the turn writes nothing,
    adds the URL to [visited_urls] and to [failed_urls], does not count it,
    and the loop goes on with the rest of the queue; at every later point of
    the run the URL is still in [failed_urls] and not in [downloaded_files],
    and the only observation about it is that one request: it is not tried
    again. *)
Theorem failed_request_is_recorded_and_not_retried f frontier n l url rest :
  run n (start (fresh f) frontier) = Running l ->
  urls_to_process l = url :: rest ->
  url ∉ visited_urls (self l) ->
  session_get (length (trace (self l))) url = Raises ->
  exists st',
    loop_body l = Running (mkLoop st' rest (processed_count l))
    /\ fs st' = fs (self l)
    /\ downloaded_files st' = downloaded_files (self l)
    /\ failed_urls st' = {[url]} ∪ failed_urls (self l)
    /\ visited_urls st' = {[url]} ∪ visited_urls (self l)
    /\ forall m, n < m ->
         let st := self (loop_of (run m (start (fresh f) frontier))) in
         url ∈ failed_urls st
         /\ downloaded_files st !! url = None
         /\ about url (trace st) = [Download url Raises].
Proof.
  intros Hrun Hq Hvis Hr.
  pose proof (run_inv check_bracketed_host cwd session_get find_hrefs
                iter_order mkdir_refused open_write n _
                (LoopInv_start f frontier)) as [_ Hinv].
  rewrite Hrun in Hinv. destruct Hinv as [Hst _].
  destruct (loop_body_turn l url rest Hq Hvis)
    as (st1 & Hv1 & Hd1 & Hfs1 & Ht1 & Hf1 & Hcases).
  rewrite Hr in Ht1, Hf1, Hcases.
  destruct Hcases as [[_ Hb] | (len & text & [=] & _)].
  exists st1. do 5 (split; [assumption|]).
  intros m Hm st. subst st.
  replace m with (n + S (m - n - 1)) by lia.
  rewrite (run_add _ _ _ _ _ _ _ _ _ _ _ Hrun). simpl. rewrite Hb.
  set (l1 := mkLoop st1 rest (processed_count l)).
  assert (Hin1 : url ∈ visited_urls (self l1)).
  { simpl. rewrite Hv1. by apply elem_of_union_l, elem_of_singleton. }
  destruct (run_frozen check_bracketed_host cwd session_get find_hrefs
              iter_order mkdir_refused open_write url (m - n - 1) l1 Hin1)
    as (_ & -> & ->).
  destruct (run_grows (m - n - 1) l1) as (_ & Hf & _).
  split.
  { apply Hf. simpl. rewrite Hf1.
    by apply elem_of_union_l, elem_of_singleton. }
  simpl. rewrite Hd1, Ht1. split.
  - apply not_elem_of_dom. intros Hin.
    by apply Hvis, (inv_downloaded_visited _ Hst).
  - rewrite about_cons_same by done. by rewrite about_unvisited.
Qed.

(** X7.  A page with one href for which [urljoin], [normalize_url] or
    [is_valid_url] raises stops the crawl: the page is fetched and
    [save_page] is run, then the exception of [extract_links_from_page]
    leaves [crawl]; the rest of the queue is not processed and the page is
    not counted. *)
Theorem unparsable_href_stops_the_crawl
    l url rest content_length text href :
  urls_to_process l = url :: rest ->
  url ∉ visited_urls (self l) ->
  session_get (length (trace (self l))) url = Responds content_length text ->
  (content_length <= MAX_FILE_SIZE)%N ->
  text <> "" ->
  href ∈ find_hrefs text ->
  link_of_href check_bracketed_host url href = None ->
  exists st1 st',
    download_page url (mark_visited url (self l)) = (Some text, st1)
    /\ res_state (save_page url text st1) = st'
    /\ forall k,
         run (S k) l = Raised (mkLoop st' rest (processed_count l)).
Proof.
  intros Hq Hvis Hr Hlen Htext Hin Hbad.
  assert (Hx : extract_links_from_page text url = None).
  { apply LinkFacts.collect_links_None. eauto. }
  unfold Crawler.download_page, Crawler.mark_visited. simpl. rewrite Hr.
  apply N.ltb_ge in Hlen. rewrite Hlen.
  eexists. eexists. split; [reflexivity|]. split; [reflexivity|].
  intros k. simpl. unfold Crawler.loop_body.
  rewrite Hq, bool_decide_eq_false_2 by done.
  unfold Crawler.download_page, Crawler.mark_visited. simpl.
  rewrite Hr, Hlen. destruct text as [|a text]; [done|].
  destruct (Crawler.save_page _ _ _ _ _ _ _) as [p st2|st2]; [|done].
  by rewrite Hx.
Qed.

(** ** Where the pages are written *)





End World.
End LoopFacts.

(** * Before the loop: the sitemaps, the output directories, the seeds *)

Module DiscoveryFacts.
Import Urllib UrllibJoin Config Utils Crawler.

Section Sitemaps.

Variable check_bracketed_host : string -> bool.
Variable sitemap_get : string -> SitemapResponse.

Local Abbreviation is_valid_url := (is_valid_url check_bracketed_host).
Local Abbreviation normalize_url := (normalize_url check_bracketed_host).
Local Abbreviation scan_locs := (scan_locs check_bracketed_host).
Local Abbreviation try_sitemaps :=
  (try_sitemaps check_bracketed_host sitemap_get).
Local Abbreviation discover_urls_from_sitemap :=
  (discover_urls_from_sitemap check_bracketed_host sitemap_get).

(** ** The sitemaps *)

Lemma sitemap_addresses_eq :
  mapM (urljoin check_bracketed_host BASE_URL)
    ["/sitemap.xml"; "/sitemap_index.xml"; "/docs/sitemap.xml"]
  = Some sitemap_addresses.
Proof. reflexivity. Qed.

Lemma valid_normalizes loc b :
  is_valid_url loc = Some b -> exists u, normalize_url loc = Some u.
Proof.
  unfold Crawler.is_valid_url, Crawler.normalize_url.
  destruct (urlparse _ loc "") as [parsed|]; [|done]. eauto.
Qed.

(** The valid locs of a list, normalised. *)
Local Abbreviation found_in locs u :=
  (exists loc, loc ∈ locs /\ is_valid_url loc = Some true
               /\ normalize_url loc = Some u).

Lemma scan_locs_sound locs discovered :
  discovered ⊆ fst (scan_locs locs discovered)
  /\ forall u, u ∈ fst (scan_locs locs discovered) ->
       u ∈ discovered \/ found_in locs u.
Proof.
  revert discovered. induction locs as [|loc locs IH]; intros d; simpl.
  { split; [done | by left]. }
  destruct (is_valid_url loc) as [[|]|] eqn:Ev; simpl.
  - destruct (normalize_url loc) as [n|] eqn:En; simpl.
    + destruct (IH ({[n]} ∪ d)) as [Hsub Hall]. split.
      * etrans; [|exact Hsub]. apply union_subseteq_r.
      * intros u [Hu | (l & Hl & ? & ?)]%Hall.
        -- apply elem_of_union in Hu as [->%elem_of_singleton | ?];
             [|by left].
           right. exists loc. split; [by left | done].
        -- right. exists l. split; [by right | done].
    + split; [done | by left].
  - destruct (IH d) as [Hsub Hall]. split; [done|].
    intros u [? | (l & Hl & ? & ?)]%Hall; [by left|].
    right. exists l. split; [by right | done].
  - split; [done | by left].
Qed.

(** When every loc can be parsed the loop reaches its end, with all the
    valid ones. *)
Lemma scan_locs_complete locs discovered :
  (forall loc, loc ∈ locs -> is_valid_url loc <> None) ->
  snd (scan_locs locs discovered) = true
  /\ forall u, u ∈ fst (scan_locs locs discovered)
       <-> u ∈ discovered \/ found_in locs u.
Proof.
  revert discovered. induction locs as [|loc locs IH]; intros d Hok; simpl.
  { split; [done|]. intros u. split; [by left|].
    intros [? | (l & Hl & _)]; [done|]. by apply not_elem_of_nil in Hl. }
  assert (Hok' : forall l, l ∈ locs -> is_valid_url l <> None).
  { intros l Hl. apply Hok. by right. }
  destruct (is_valid_url loc) as [[|]|] eqn:Ev; simpl.
  - destruct (valid_normalizes _ _ Ev) as [n En]. rewrite En.
    destruct (IH ({[n]} ∪ d) Hok') as [Hfin Hiff]. split; [done|].
    intros u. rewrite Hiff, elem_of_union, elem_of_singleton. split.
    + intros [[-> | ?] | (l & Hl & ? & ?)]; [|by left|].
      * right. exists loc. split; [by left | done].
      * right. exists l. split; [by right | done].
    + intros [? | (l & [-> | Hl]%elem_of_cons & Hv & Hn)]; [by left; right| |].
      * left; left. congruence.
      * right. by exists l.
  - destruct (IH d Hok') as [Hfin Hiff]. split; [done|].
    intros u. rewrite Hiff. split.
    + intros [? | (l & Hl & ? & ?)]; [by left|].
      right. exists l. split; [by right | done].
    + intros [? | (l & [-> | Hl]%elem_of_cons & Hv & Hn)];
        [by left | congruence | right; by exists l].
  - exfalso. apply (Hok loc); [by left | done].
Qed.

(** A loc that cannot be parsed ends the loop where it stands. *)
Lemma scan_locs_stops good bad more discovered :
  (forall loc, loc ∈ good -> is_valid_url loc <> None) ->
  is_valid_url bad = None ->
  scan_locs (good ++ bad :: more) discovered
  = (fst (scan_locs good discovered), false).
Proof.
  revert discovered. induction good as [|loc good IH]; intros d Hok Hbad.
  { simpl. by rewrite Hbad. }
  assert (Hok' : forall l, l ∈ good -> is_valid_url l <> None).
  { intros l Hl. apply Hok. by right. }
  simpl. destruct (is_valid_url loc) as [[|]|] eqn:Ev.
  - destruct (valid_normalizes _ _ Ev) as [n ->]. by apply IH.
  - by apply IH.
  - exfalso. apply (Hok loc); [by left | done].
Qed.

Lemma try_sitemaps_sound sitemap_urls discovered u :
  u ∈ try_sitemaps sitemap_urls discovered ->
  u ∈ discovered
  \/ exists sitemap_url locs,
       sitemap_url ∈ sitemap_urls
       /\ sitemap_get sitemap_url = SitemapAnswers 200 locs
       /\ found_in locs u.
Proof.
  revert discovered.
  induction sitemap_urls as [|su rest IH]; intros d; simpl; [by left|].
  assert (Hrest : u ∈ try_sitemaps rest d ->
            u ∈ d
            \/ exists sitemap_url locs,
                 sitemap_url ∈ su :: rest
                 /\ sitemap_get sitemap_url = SitemapAnswers 200 locs
                 /\ found_in locs u).
  { intros [? | (x & locs & Hx & ?)]%IH; [by left|].
    right. exists x, locs. split; [by right | done]. }
  destruct (sitemap_get su) as [|code locs] eqn:Es; [done|].
  destruct (code =? 200)%nat eqn:Ec; [|done].
  apply Nat.eqb_eq in Ec as ->.
  destruct (scan_locs_sound locs d) as [_ Hall].
  destruct (scan_locs locs d) as [d' fin]. simpl in Hall.
  assert (Hd' : u ∈ d' ->
            u ∈ d
            \/ exists sitemap_url locs0,
                 sitemap_url ∈ su :: rest
                 /\ sitemap_get sitemap_url = SitemapAnswers 200 locs0
                 /\ found_in locs0 u).
  { intros [? | Hf]%Hall; [by left|]. right. exists su, locs.
    split; [by left | done]. }
  destruct fin; [done|].
  intros [? | (x & locs0 & Hx & ?)]%IH; [by apply Hd'|].
  right. exists x, locs0. split; [by right | done].
Qed.

Lemma try_sitemaps_all_fail sitemap_urls discovered :
  (forall sitemap_url, sitemap_url ∈ sitemap_urls ->
     sitemap_fails (sitemap_get sitemap_url) = true) ->
  try_sitemaps sitemap_urls discovered = discovered.
Proof.
  induction sitemap_urls as [|su rest IH]; intros Hall; simpl; [done|].
  assert (Hrest : try_sitemaps rest discovered = discovered).
  { apply IH. intros x Hx. apply Hall. by right. }
  specialize (Hall su ltac:(by left)).
  destruct (sitemap_get su) as [|code locs]; [done|]. simpl in Hall.
  apply negb_true_iff in Hall. by rewrite Hall.
Qed.

Lemma try_sitemaps_skip before sitemap_url after discovered :
  (forall x, x ∈ before -> sitemap_fails (sitemap_get x) = true) ->
  try_sitemaps (before ++ sitemap_url :: after) discovered
  = try_sitemaps (sitemap_url :: after) discovered.
Proof.
  induction before as [|su rest IH]; intros Hall; [done|].
  assert (Hrest : try_sitemaps (rest ++ sitemap_url :: after) discovered
                  = try_sitemaps (sitemap_url :: after) discovered).
  { apply IH. intros x Hx. apply Hall. by right. }
  specialize (Hall su ltac:(by left)).
  change ((su :: rest) ++ sitemap_url :: after)
    with (su :: (rest ++ sitemap_url :: after)).
  simpl. simpl in Hrest.
  destruct (sitemap_get su) as [|code locs]; [done|]. simpl in Hall.
  apply negb_true_iff in Hall. by rewrite Hall.
Qed.

(** X11.  [discover_urls_from_sitemap] does not raise, whatever the requests do
    and whatever the sitemaps hold; every URL it returns is the normal form
    of a [loc] that [is_valid_url] accepts, from a sitemap that was
    answered with the status 200. *)
Theorem discovered_urls_are_valid_sitemap_locs :
  exists discovered,
    discover_urls_from_sitemap = Some discovered
    /\ forall u, u ∈ discovered ->
         exists sitemap_url locs loc,
           sitemap_url ∈ sitemap_addresses
           /\ sitemap_get sitemap_url = SitemapAnswers 200 locs
           /\ loc ∈ locs
           /\ is_valid_url loc = Some true
           /\ normalize_url loc = Some u.
Proof.
  unfold Crawler.discover_urls_from_sitemap. rewrite sitemap_addresses_eq.
  eexists. split; [reflexivity|].
  intros u [Hu | (su & locs & Hsu & Hget & loc & Hloc & Hv & Hn)]
    %try_sitemaps_sound.
  - by apply not_elem_of_empty in Hu.
  - by exists su, locs, loc.
Qed.

(** X12.  The first sitemap answered with the status 200 is the one that is
    read: when all its locs can be parsed, the result is the set of its
    valid locs, normalised, and the addresses after it are not used; when
    no address is answered with 200, the result is empty. *)
Theorem first_answered_sitemap_is_the_one_read :
  ((forall sitemap_url, sitemap_url ∈ sitemap_addresses ->
      sitemap_fails (sitemap_get sitemap_url) = true) ->
   discover_urls_from_sitemap = Some ∅)
  /\ (forall before sitemap_url after locs,
        sitemap_addresses = before ++ sitemap_url :: after ->
        (forall x, x ∈ before -> sitemap_fails (sitemap_get x) = true) ->
        sitemap_get sitemap_url = SitemapAnswers 200 locs ->
        (forall loc, loc ∈ locs -> is_valid_url loc <> None) ->
        exists discovered,
          discover_urls_from_sitemap = Some discovered
          /\ forall u, u ∈ discovered
               <-> exists loc, loc ∈ locs
                    /\ is_valid_url loc = Some true
                    /\ normalize_url loc = Some u).
Proof.
  unfold Crawler.discover_urls_from_sitemap. rewrite sitemap_addresses_eq.
  split.
  { intros Hall. by rewrite try_sitemaps_all_fail. }
  intros before su after locs -> Hbefore Hget Hok.
  rewrite (try_sitemaps_skip _ _ _ _ Hbefore). simpl. rewrite Hget. simpl.
  destruct (scan_locs_complete locs ∅ Hok) as [Hfin Hiff].
  destruct (scan_locs locs ∅) as [d fin]. simpl in Hfin, Hiff. subst fin.
  exists d. split; [done|]. intros u. rewrite Hiff. split; [|by right].
  intros [Hu | ?]; [by apply not_elem_of_empty in Hu | done].
Qed.

(** X13.  A [loc] that [urlparse] rejects ends the reading of its sitemap: the
    URLs found before it are kept, the locs after it are not looked at, and
    the next address is tried with what was found so far. *)
Theorem unparsable_loc_ends_the_reading_of_a_sitemap
    sitemap_url rest discovered good bad more :
  sitemap_get sitemap_url = SitemapAnswers 200 (good ++ bad :: more) ->
  (forall loc, loc ∈ good -> is_valid_url loc <> None) ->
  is_valid_url bad = None ->
  try_sitemaps (sitemap_url :: rest) discovered
    = try_sitemaps rest (fst (scan_locs good discovered))
  /\ forall u, u ∈ fst (scan_locs good discovered)
       <-> u ∈ discovered
           \/ exists loc, loc ∈ good
                /\ is_valid_url loc = Some true
                /\ normalize_url loc = Some u.
Proof.
  intros Hget Hok Hbad. split.
  - simpl. rewrite Hget. simpl.
    by rewrite (scan_locs_stops good bad more discovered Hok Hbad).
  - by destruct (scan_locs_complete good discovered Hok) as [_ Hiff].
Qed.

End Sitemaps.

(** ** The output directories *)

Section Directories.

Variable cwd : string.
Variable mkdir_refused : nat -> string -> bool.

Local Abbreviation ensure_directory := (ensure_directory mkdir_refused).
Local Abbreviation init := (init cwd mkdir_refused).

Lemma ancestors_from_self pre rest :
  pre +:+ rest ∈ ancestors_from pre rest.
Proof.
  revert pre. induction rest as [|a rest IH]; intros pre; simpl.
  { rewrite PyFacts.append_nil_r. by left. }
  specialize (IH (pre +:+ String a "")).
  rewrite PyFacts.append_assoc in IH. simpl in IH.
  destruct (_ && _); [by right | done].
Qed.

Lemma ancestors_self p : p ∈ ancestors p.
Proof. apply (ancestors_from_self "" p). Qed.

(** A directory that cannot be made: the system refuses, or a regular file
    is on the way. *)
Local Abbreviation blocked tick p f :=
  (mkdir_refused tick p = true
   \/ exists a, a ∈ ancestors p /\ a ∈ dom (files f)).

Lemma file_on_the_way p f :
  existsb (fun a => bool_decide (a ∈ dom (files f))) (ancestors p) = true
  <-> exists a, a ∈ ancestors p /\ a ∈ dom (files f).
Proof.
  rewrite existsb_exists. split; intros (a & Ha & Hf); exists a.
  - apply bool_decide_eq_true in Hf. by apply list_elem_of_In in Ha.
  - split; [by apply list_elem_of_In | by apply bool_decide_eq_true].
Qed.

Lemma ensure_directory_cases tick p f :
  (ensure_directory tick p f = None /\ blocked tick p f)
  \/ (ensure_directory tick p f
        = Some (mkFS (files f) (list_to_set (ancestors p) ∪ dirs f))
      /\ ~ blocked tick p f).
Proof.
  unfold Crawler.ensure_directory.
  destruct (mkdir_refused tick p) eqn:Er; [left; by auto|].
  destruct (existsb _ _) eqn:Ee.
  - left. split; [done|]. right. by apply file_on_the_way.
  - right. split; [done|]. intros [? | Hf]; [done|].
    apply file_on_the_way in Hf. congruence.
Qed.

(** X16.  When [ensure_directory] returns, the directory exists, no file has
    changed and no directory has gone, and a second call, if the system
    does not refuse it, changes nothing. *)
Theorem ensure_directory_makes_the_path_once tick p f f' :
  ensure_directory tick p f = Some f' ->
  files f' = files f
  /\ dirs f ⊆ dirs f'
  /\ p ∈ dirs f'
  /\ forall tick', mkdir_refused tick' p = false ->
       ensure_directory tick' p f' = Some f'.
Proof.
  intros Hsome.
  destruct (ensure_directory_cases tick p f) as [[Hn _] | [Hs Hfree]];
    [congruence|].
  rewrite Hs in Hsome. injection Hsome as <-. simpl.
  split; [done|]. split; [apply union_subseteq_r|].
  assert (Hiff : forall a,
            a ∈ list_to_set (C := gset string) (ancestors p) ∪ dirs f
            <-> a ∈ ancestors p \/ a ∈ dirs f).
  { intros a. by rewrite elem_of_union, elem_of_list_to_set. }
  split; [apply Hiff; left; apply ancestors_self|].
  intros tick' Hok.
  destruct (ensure_directory_cases tick' p
              (mkFS (files f) (list_to_set (ancestors p) ∪ dirs f)))
    as [[_ Hb] | [-> _]].
  - exfalso. apply Hfree. right. destruct Hb as [? | ?]; [congruence|done].
  - simpl. do 2 f_equal. apply set_eq. intros a.
    rewrite elem_of_union, Hiff, elem_of_list_to_set. tauto.
Qed.



End Directories.

(** ** The seeds *)

Section Seeds.

Variable check_bracketed_host : string -> bool.
Variable cwd : string.
Variable session_get : nat -> string -> Response.
Variable sitemap_get : string -> SitemapResponse.
Variable find_hrefs : string -> list string.
Variable iter_order : list string -> list string.
Variable mkdir_refused : nat -> string -> bool.
Variable open_write : nat -> string -> string -> WriteOutcome.

Local Abbreviation try_sitemaps :=
  (try_sitemaps check_bracketed_host sitemap_get).
Local Abbreviation discover_urls_from_sitemap :=
  (discover_urls_from_sitemap check_bracketed_host sitemap_get).
Local Abbreviation init := (init cwd mkdir_refused).
Local Abbreviation initial_urls :=
  (initial_urls check_bracketed_host sitemap_get iter_order).
Local Abbreviation crawl :=
  (crawl check_bracketed_host cwd session_get sitemap_get find_hrefs
     iter_order mkdir_refused open_write).

Lemma priority_urls_eq :
  mapM (urljoin check_bracketed_host BASE_URL) PRIORITY_SECTIONS
  = Some ((fun section => BASE_URL +:+ section) <$> PRIORITY_SECTIONS).
Proof. reflexivity. Qed.

Lemma initial_urls_eq :
  initial_urls
  = Some (iter_order (elements
            ({[BASE_URL; DOCS_BASE_URL]}
             ∪ list_to_set
                 ((fun section => BASE_URL +:+ section) <$> PRIORITY_SECTIONS)
             ∪ try_sitemaps sitemap_addresses ∅))).
Proof.
  unfold Crawler.initial_urls. rewrite priority_urls_eq.
  unfold Crawler.discover_urls_from_sitemap. by rewrite (sitemap_addresses_eq check_bracketed_host).
Qed.

(** X14.  [crawl] starts its loop, as soon as [__init__] has returned, from a
    queue without repetition that holds the base URL, the documentation URL,
    the six priority sections and what the sitemaps gave, and nothing else:
    neither the sitemap requests nor the [urljoin] calls can make it
    raise. *)
Theorem crawl_starts_from_the_seeds fuel f :
  (forall xs, iter_order xs ≡ₚ xs) ->
  exists discovered frontier,
    discover_urls_from_sitemap = Some discovered
    /\ initial_urls = Some frontier
    /\ NoDup frontier
    /\ (forall u, u ∈ frontier
           <-> u = BASE_URL \/ u = DOCS_BASE_URL
               \/ (exists section, section ∈ PRIORITY_SECTIONS
                                   /\ u = BASE_URL +:+ section)
               \/ u ∈ discovered)
    /\ crawl fuel f
       = match init f with
         | Some st =>
             Some (run check_bracketed_host cwd session_get find_hrefs
                     iter_order mkdir_refused open_write fuel
                     (start st frontier))
         | None => None
         end.
Proof.
  intros Hperm. unfold Crawler.crawl. rewrite initial_urls_eq.
  unfold Crawler.discover_urls_from_sitemap. rewrite (sitemap_addresses_eq check_bracketed_host).
  eexists. eexists. split; [reflexivity|]. split; [reflexivity|].
  split; [rewrite Hperm; apply NoDup_elements|]. split.
  - intros u. rewrite Hperm, elem_of_elements, !elem_of_union,
      elem_of_list_to_set, list_elem_of_fmap, elem_of_singleton.
    split.
    + intros [[[-> | ->%elem_of_singleton] | (x & -> & Hx)] | ?]; eauto 6.
    + intros [-> | [-> | [(x & Hx & ->) | ?]]]; eauto 6.
      left; left; right. by apply elem_of_singleton.
  - by destruct (init f).
Qed.

End Seeds.
End DiscoveryFacts.

(** * The further theorems on concrete inputs *)

Module MoreRuns.
Import Urllib Config Utils Crawler Scenarios.

Lemma extracted_links_are_the_valid_targets_witness :
  extract_links_from_page accept_host site_hrefs home_page BASE_URL
    = Some {[guide]}
  /\ is_valid_url accept_host guide = Some true
  /\ Py.char_in "#" guide = false.
Proof.
  assert (H : extract_links_from_page accept_host site_hrefs home_page
                BASE_URL = Some {[guide]}) by (vm_compute; reflexivity).
  split; [exact H|].
  apply (proj2 (LinkFacts.extracted_links_are_the_valid_targets
                  accept_host site_hrefs home_page BASE_URL {[guide]} H)).
  by apply elem_of_singleton.
Defined.


Lemma summary_counts_are_consistent_witness :
  (forall xs, in_order xs ≡ₚ xs)
  /\ site_run 5 = Finished site_final
  /\ successful_downloads (summary in_order site_final)
       <= total_pages (summary in_order site_final)
  /\ total_pages (summary in_order site_final)
       + failed_downloads (summary in_order site_final)
       <= size (visited_urls (self site_final)).
Proof.
  assert (H1 : forall xs, in_order xs ≡ₚ xs) by (intros xs; reflexivity).
  assert (H2 : site_run 5 = Finished site_final) by (vm_compute; reflexivity).
  split; [exact H1|]. split; [exact H2|].
  pose proof (LoopFacts.summary_counts_are_consistent
                accept_host home site site_hrefs in_order mkdir_allowed
                disk_ok empty_disk [BASE_URL] 5 site_final H1 H2) as H.
  split; [exact (proj1 H) | exact (proj1 (proj2 H))].
Defined.

Lemma finished_crawl_has_followed_every_link_witness :
  (forall xs, in_order xs ≡ₚ xs)
  /\ site_run 5 = Finished site_final
  /\ urls_to_process site_final = []
  /\ forall url, url ∈ [BASE_URL] -> url ∈ visited_urls (self site_final).
Proof.
  assert (H1 : forall xs, in_order xs ≡ₚ xs) by (intros xs; reflexivity).
  assert (H2 : site_run 5 = Finished site_final) by (vm_compute; reflexivity).
  split; [exact H1|]. split; [exact H2|].
  pose proof (LoopFacts.finished_crawl_has_followed_every_link
                accept_host home site site_hrefs in_order mkdir_allowed
                disk_ok empty_disk [BASE_URL] 5 site_final H1 H2) as H.
  split; [exact (proj1 H) | exact (proj1 (proj2 H))].
Defined.

Lemma visited_urls_are_seeds_or_valid_links_witness :
  (forall xs, in_order xs ≡ₚ xs)
  /\ guide ∈ visited_urls (self site_final)
  /\ (guide ∈ [BASE_URL]
      \/ (is_valid_url accept_host guide = Some true
          /\ Py.char_in "#" guide = false
          /\ found_on_a_page accept_host site_hrefs
               (trace (self site_final)) guide)).
Proof.
  assert (H1 : forall xs, in_order xs ≡ₚ xs) by (intros xs; reflexivity).
  assert (H2 : guide ∈ visited_urls (self site_final)).
  { apply (bool_decide_eq_true_1 (guide ∈ visited_urls (self site_final))).
    vm_compute. reflexivity. }
  split; [exact H1|]. split; [exact H2|].
  exact (LoopFacts.visited_urls_are_seeds_or_valid_links
           accept_host home site site_hrefs in_order mkdir_allowed
           disk_ok empty_disk [BASE_URL] 5 guide H1 H2).
Defined.


Lemma failed_request_is_recorded_and_not_retried_witness :
  site_run 1 = Running after_home
  /\ urls_to_process after_home = [guide]
  /\ (guide ∉ visited_urls (self after_home))
  /\ site (length (trace (self after_home))) guide = Raises
  /\ forall m, 1 < m ->
       guide ∈ failed_urls (self (loop_of (site_run m)))
       /\ downloaded_files (self (loop_of (site_run m))) !! guide = None.
Proof.
  assert (H1 : site_run 1 = Running after_home) by (vm_compute; reflexivity).
  assert (H2 : urls_to_process after_home = [guide])
    by (vm_compute; reflexivity).
  assert (H3 : guide ∉ visited_urls (self after_home)).
  { apply (bool_decide_eq_false_1 (guide ∈ visited_urls (self after_home))).
    vm_compute. reflexivity. }
  assert (H4 : site (length (trace (self after_home))) guide = Raises)
    by (vm_compute; reflexivity).
  split; [exact H1|]. split; [exact H2|]. split; [exact H3|].
  split; [exact H4|].
  destruct (LoopFacts.failed_request_is_recorded_and_not_retried
              accept_host home site site_hrefs in_order mkdir_allowed
              disk_ok empty_disk [BASE_URL] 1 after_home guide [] H1 H2 H3 H4)
    as (st' & _ & _ & _ & _ & _ & Hlater).
  intros m Hm. destruct (Hlater m Hm) as (Hf & Hd & _).
  split; [exact Hf | exact Hd].
Defined.

Lemma unparsable_href_stops_the_crawl_witness :
  urls_to_process from_base = [BASE_URL]
  /\ (BASE_URL ∉ visited_urls (self from_base))
  /\ site (length (trace (self from_base))) BASE_URL = Responds 28 home_page
  /\ (28 <= MAX_FILE_SIZE)%N
  /\ home_page <> ""
  /\ broken_href ∈ broken_hrefs home_page
  /\ link_of_href accept_host BASE_URL broken_href = None
  /\ exists l,
       forall k,
         run accept_host home site broken_hrefs in_order mkdir_allowed
           disk_ok (S k) from_base = Raised l.
Proof.
  assert (H1 : urls_to_process from_base = [BASE_URL]) by reflexivity.
  assert (H2 : BASE_URL ∉ visited_urls (self from_base))
    by apply not_elem_of_empty.
  assert (H3 : site (length (trace (self from_base))) BASE_URL
               = Responds 28 home_page) by reflexivity.
  assert (H4 : (28 <= MAX_FILE_SIZE)%N) by (unfold MAX_FILE_SIZE; lia).
  assert (H5 : home_page <> "") by discriminate.
  assert (H6 : broken_href ∈ broken_hrefs home_page)
    by apply list_elem_of_here.
  assert (H7 : link_of_href accept_host BASE_URL broken_href = None)
    by (vm_compute; reflexivity).
  do 7 (split; [assumption|]).
  destruct (LoopFacts.unparsable_href_stops_the_crawl
              accept_host home site broken_hrefs in_order mkdir_allowed
              disk_ok from_base BASE_URL [] 28 home_page broken_href
              H1 H2 H3 H4 H5 H6 H7)
    as (st1 & st' & _ & _ & Hrun).
  eexists. exact Hrun.
Defined.


Lemma sanitize_filename_is_clean_witness :
  sanitize_filename "a/b:c" = "a_b_c"
  /\ Py.char_in "_" (sanitize_filename "a/b:c") = true
  /\ is_invalid_char "_" = false
  /\ is_control_char "_" = false.
Proof.
  assert (H : Py.char_in "_" (sanitize_filename "a/b:c") = true)
    by reflexivity.
  split; [reflexivity|]. split; [exact H|].
  exact (proj2 (UtilsFacts.sanitize_filename_is_clean "a/b:c" "_") H).
Defined.

Lemma sanitize_filename_length_limit_witness :
  (forall stem e, Py.rpartition "." "guide.html" = Some (stem, e) ->
     String.length e < 255)
  /\ String.length (sanitize_filename "guide.html") <= 255.
Proof.
  assert (H : forall stem e,
            Py.rpartition "." "guide.html" = Some (stem, e) ->
            String.length e < 255).
  { intros stem e Heq. vm_compute in Heq. injection Heq as _ <-.
    simpl. lia. }
  split; [exact H|].
  exact (proj2 (UtilsFacts.sanitize_filename_length_limit "guide.html") H).
Defined.

Lemma sanitize_filename_keeps_clean_names_witness :
  "guide.html" <> ""
  /\ Py.forallb is_clean_char "guide.html" = true
  /\ String.length "guide.html" <= 255
  /\ sanitize_filename "guide.html" = "guide.html".
Proof.
  assert (H1 : "guide.html" <> "") by discriminate.
  assert (H2 : Py.forallb is_clean_char "guide.html" = true) by reflexivity.
  assert (H3 : String.length "guide.html" <= 255) by (simpl; lia).
  split; [exact H1|]. split; [exact H2|]. split; [exact H3|].
  exact (proj1 (UtilsFacts.sanitize_filename_keeps_clean_names "guide.html")
           H1 H2 H3).
Defined.

Lemma get_file_extension_ignores_query_and_fragment_witness :
  Py.char_in "?" "https://angular.dev/assets/logo.PNG" = false
  /\ get_file_extension "https://angular.dev/assets/logo.PNG?v=2"
     = get_file_extension "https://angular.dev/assets/logo.PNG"
  /\ get_file_extension "https://angular.dev/assets/logo.PNG" = ".png".
Proof.
  assert (H : Py.char_in "?" "https://angular.dev/assets/logo.PNG" = false)
    by reflexivity.
  split; [exact H|]. split; [|reflexivity].
  exact (proj1 (UtilsFacts.get_file_extension_ignores_query_and_fragment
                  "https://angular.dev/assets/logo.PNG") "v=2" H).
Defined.

Lemma is_documentation_url_ignores_case_and_context_witness :
  is_documentation_url "/Guide/" = true
  /\ is_documentation_url ("https://angular.dev" +:+ "/Guide/" +:+ "forms")
     = true.
Proof.
  assert (H : is_documentation_url "/Guide/" = true) by reflexivity.
  split; [exact H|].
  exact (proj2 (UtilsFacts.is_documentation_url_ignores_case_and_context
                  "/Guide/") "https://angular.dev" "forms" H).
Defined.

Lemma format_bytes_of_whole_units_witness :
  (1 <= 5 < 1024)%Z
  /\ format_bytes (5 * 1024) = pretty 5%Z +:+ ".0 KB"
  /\ format_bytes 5120 = "5.0 KB".
Proof.
  assert (H : (1 <= 5 < 1024)%Z) by lia.
  split; [exact H|]. split; [|reflexivity].
  exact (proj1 (proj1 (proj2 (UtilsFacts.format_bytes_of_whole_units 5)) H)).
Defined.

Lemma format_bytes_shows_1024_below_the_next_unit_witness :
  (20 * 1024 ^ 2 - 1024 <= 20 * 1048575)%Z
  /\ (1048575 < 1024 ^ 2)%Z
  /\ format_bytes 1048575 = "1024.0 KB".
Proof.
  assert (H1 : (20 * 1024 ^ 2 - 1024 <= 20 * 1048575)%Z) by lia.
  assert (H2 : (1048575 < 1024 ^ 2)%Z) by lia.
  split; [exact H1|]. split; [exact H2|].
  exact (proj1 (UtilsFacts.format_bytes_shows_1024_below_the_next_unit
                  1048575) H1 H2).
Defined.

Lemma first_answered_sitemap_is_the_one_read_witness :
  sitemap_addresses
    = ["https://angular.dev/sitemap.xml"]
      ++ "https://angular.dev/sitemap_index.xml"
         :: ["https://angular.dev/docs/sitemap.xml"]
  /\ (forall x, x ∈ ["https://angular.dev/sitemap.xml"] ->
        sitemap_fails (index_sitemap x) = true)
  /\ index_sitemap "https://angular.dev/sitemap_index.xml"
     = SitemapAnswers 200 index_locs
  /\ (forall loc, loc ∈ index_locs -> is_valid_url accept_host loc <> None)
  /\ exists discovered,
       discover_urls_from_sitemap accept_host index_sitemap = Some discovered
       /\ forall u, u ∈ discovered
            <-> exists loc, loc ∈ index_locs
                 /\ is_valid_url accept_host loc = Some true
                 /\ normalize_url accept_host loc = Some u.
Proof.
  assert (H1 : sitemap_addresses
               = ["https://angular.dev/sitemap.xml"]
                 ++ "https://angular.dev/sitemap_index.xml"
                    :: ["https://angular.dev/docs/sitemap.xml"])
    by reflexivity.
  assert (H2 : forall x, x ∈ ["https://angular.dev/sitemap.xml"] ->
                 sitemap_fails (index_sitemap x) = true).
  { intros x Hx. apply list_elem_of_singleton in Hx. subst x. reflexivity. }
  assert (H3 : index_sitemap "https://angular.dev/sitemap_index.xml"
               = SitemapAnswers 200 index_locs) by reflexivity.
  assert (H4 : forall loc, loc ∈ index_locs ->
                 is_valid_url accept_host loc <> None).
  { intros loc Hloc. unfold index_locs in Hloc.
    repeat (apply elem_of_cons in Hloc as [-> | Hloc]);
      [vm_compute; discriminate..|].
    by apply not_elem_of_nil in Hloc. }
  do 4 (split; [assumption|]).
  exact (proj2 (DiscoveryFacts.first_answered_sitemap_is_the_one_read
                  accept_host index_sitemap)
           _ _ _ index_locs H1 H2 H3 H4).
Defined.

Lemma unparsable_loc_ends_the_reading_of_a_sitemap_witness :
  torn_sitemap "https://angular.dev/sitemap.xml"
    = SitemapAnswers 200 ([forms] ++ bad_loc :: [pipes])
  /\ (forall loc, loc ∈ [forms] -> is_valid_url accept_host loc <> None)
  /\ is_valid_url accept_host bad_loc = None
  /\ try_sitemaps accept_host torn_sitemap
       ["https://angular.dev/sitemap.xml"] ∅
     = fst (scan_locs accept_host [forms] ∅)
  /\ fst (scan_locs accept_host [forms] ∅) = {[forms]}.
Proof.
  assert (H1 : torn_sitemap "https://angular.dev/sitemap.xml"
               = SitemapAnswers 200 ([forms] ++ bad_loc :: [pipes]))
    by reflexivity.
  assert (H2 : forall loc, loc ∈ [forms] ->
                 is_valid_url accept_host loc <> None).
  { intros loc Hloc. apply list_elem_of_singleton in Hloc. subst loc.
    vm_compute. discriminate. }
  assert (H3 : is_valid_url accept_host bad_loc = None)
    by (vm_compute; reflexivity).
  do 3 (split; [assumption|]). split; [|vm_compute; reflexivity].
  exact (proj1 (DiscoveryFacts.unparsable_loc_ends_the_reading_of_a_sitemap
                  accept_host torn_sitemap
                  "https://angular.dev/sitemap.xml" [] ∅
                  [forms] bad_loc [pipes] H1 H2 H3)).
Defined.

Lemma ensure_directory_makes_the_path_once_witness :
  ensure_directory mkdir_allowed 0 "/srv/docs" empty_disk
    = Some (mkFS ∅ {["/srv"; "/srv/docs"]})
  /\ "/srv/docs" ∈ dirs (mkFS ∅ {["/srv"; "/srv/docs"]})
  /\ ensure_directory mkdir_allowed 1 "/srv/docs"
       (mkFS ∅ {["/srv"; "/srv/docs"]})
     = Some (mkFS ∅ {["/srv"; "/srv/docs"]}).
Proof.
  assert (H : ensure_directory mkdir_allowed 0 "/srv/docs" empty_disk
              = Some (mkFS ∅ {["/srv"; "/srv/docs"]}))
    by (vm_compute; reflexivity).
  split; [exact H|].
  destruct (DiscoveryFacts.ensure_directory_makes_the_path_once
              mkdir_allowed 0 "/srv/docs" empty_disk _ H)
    as (_ & _ & Hin & Hagain).
  split; [exact Hin|]. apply Hagain. reflexivity.
Defined.


Lemma crawl_starts_from_the_seeds_witness :
  (forall xs, in_order xs ≡ₚ xs)
  /\ exists frontier,
       initial_urls accept_host no_sitemap in_order = Some frontier
       /\ NoDup frontier
       /\ forall u, u ∈ frontier
            <-> u = BASE_URL \/ u = DOCS_BASE_URL
                \/ (exists section, section ∈ PRIORITY_SECTIONS
                                    /\ u = BASE_URL +:+ section)
                \/ u ∈ (∅ : gset string).
Proof.
  assert (H : forall xs, in_order xs ≡ₚ xs) by (intros xs; reflexivity).
  split; [exact H|].
  destruct (DiscoveryFacts.crawl_starts_from_the_seeds
              accept_host home site no_sitemap site_hrefs in_order
              mkdir_allowed disk_ok 0 empty_disk H)
    as (discovered & frontier & Hd & Hi & Hn & Hiff & _).
  assert (Hempty : discovered = ∅).
  { vm_compute in Hd. by injection Hd as <-. }
  subst discovered. exists frontier. split; [exact Hi|].
  split; [exact Hn | exact Hiff].
Defined.

End MoreRuns.
